(** * Trivia API: a shallow embedding of the Flask backend

    The development follows the two source files of the backend:
    - [backend/utils.py]: [format_categories], [get_paginated_questions];
    - [backend/flaskr/__init__.py]: the request handlers.

    Python integers are unbounded, so they are [Z]; dictionaries are
    [gmap]s; the relational store is an explicit state threaded through a
    small state-and-exception monad. The random generator is a stream of
    draws given to the quiz handler, and the handler's [while] loop runs on
    fuel, so that "the handler returns" is a statement about enough fuel and
    "the handler hangs" a statement about every amount of it. *)

From Stdlib Require Import ZArith Ascii String.
From stdpp Require Import base gmap list strings sorting.

Local Open Scope Z_scope.
Set Warnings "-register-all".

(** ** JSON values, as [request.get_json()] delivers them *)

Inductive json : Type :=
  | JNull
  | JBool (b : bool)
  | JNum (n : Z)
  | JStr (s : string)
  | JArr (l : list json)
  | JObj (l : list (string * json)).

(** Python's [v == ''] on a decoded JSON value: only the empty string
    compares equal to [''] ([None], numbers, booleans, lists and dicts
    never do). *)
Definition py_eq_empty_str (v : json) : bool :=
  match v with
  | JStr EmptyString => true
  | _ => false
  end.

(** ** Records of the data model

    The classes [Question] and [Category] are declared in [models.py], which
    is not among the sources. *)

Module Question.
(** Modelled from the spec: a question has an id assigned by the store, a
    question text, an answer text, the id of its category and a
    difficulty. *)
Record t : Type := Build {
  id : Z;
  question : string;
  answer : string;
  category : Z;
  difficulty : Z
}.

(** Modelled from the spec: [Question.format] lives in [models.py]; the
    spec gives the formatted representation as
    [{id, question, answer, category, difficulty}]. *)
Definition format (q : t) : json :=
  JObj [("id"%string, JNum (id q));
        ("question"%string, JStr (question q));
        ("answer"%string, JStr (answer q));
        ("category"%string, JNum (category q));
        ("difficulty"%string, JNum (difficulty q))].
End Question.

Module Category.
(** Modelled from the spec: a category has an id and a type, its display
    string. *)
Record t : Type := Build {
  id : Z;
  type : string
}.
End Category.

#[export] Instance Question_eq_dec : EqDecision Question.t.
Proof. solve_decision. Defined.

#[export] Instance Category_eq_dec : EqDecision Category.t.
Proof. solve_decision. Defined.

(** Objects that answer to [.format()]. *)
Class Formattable (A : Type) := format : A → json.
#[export] Instance Question_Formattable : Formattable Question.t := Question.format.

(** ** Python sequence slicing, [l[start:stop]]

    A negative bound counts from the end; both bounds are then clamped to
    [0 .. len(l)]; an empty range gives the empty list. *)
Definition slice_bound (len i : Z) : Z :=
  if i <? 0 then Z.max (i + len) 0 else Z.min i len.

Definition py_slice {A} (l : list A) (start stop : Z) : list A :=
  let len := Z.of_nat (length l) in
  let lo := slice_bound len start in
  let hi := slice_bound len stop in
  take (Z.to_nat (hi - lo)) (drop (Z.to_nat lo) l).

(** ** utils.py *)

(** [format_categories]: the loop [categories_list[category.id] = category.type]
    over the input, starting from the empty dict. *)
Definition format_categories (categories : list Category.t) : gmap Z string :=
  foldl (λ categories_list category,
           <[Category.id category := Category.type category]> categories_list)
        ∅ categories.

(** [request.args.get('page', 1, type=int)]: the [page] query parameter after
    the integer conversion; [None] when the parameter is absent or is not an
    integer, in which case the default 1 is used. *)
Definition args_get_page (page_arg : option Z) : Z := default 1 page_arg.

Definition get_paginated_questions {A} `{Formattable A}
    (page_arg : option Z) (questions : list A) (num_of_questions : Z) : list json :=
  let page := args_get_page page_arg in
  let start := (page - 1) * num_of_questions in
  let end_ := start + num_of_questions in
  let questions := format <$> questions in
  let current_questions := py_slice questions start end_ in
  current_questions.

Definition QUESTIONS_PER_PAGE : Z := 10.

(** ** The relational store *)

(** Modelled from the spec: the store, set up in [models.py], holds the two
    tables. Each is the list of its rows, in the order the store returns
    them for a query without [order_by]. *)

Record Store : Type := {
  questions_table : list Question.t;
  categories_table : list Category.t
}.

(** ** Outcomes of a handler

    A handler returns a response, leaves through [abort(code)], lets a
    Python exception escape, or, for the retry loop of the quiz, has not
    finished within the steps it was given. *)

Inductive exn : Type :=
  | ValueError
  | IndexError
  | AttributeError
  | MultipleResultsFound
  | StoreFault.

Inductive outcome (A : Type) : Type :=
  | Return (a : A)
  | Abort (code : Z)
  | Raise (e : exn)
  | OutOfFuel.
Arguments Return {A} a.
Arguments Abort {A} code.
Arguments Raise {A} e.
Arguments OutOfFuel {A}.

(** The handler monad: the store goes in, an outcome and the store come out. *)
Definition M (A : Type) : Type := Store → outcome A * Store.

Definition ret {A} (a : A) : M A := λ s, (Return a, s).
Definition abort {A} (code : Z) : M A := λ s, (Abort code, s).
Definition raise {A} (e : exn) : M A := λ s, (Raise e, s).
Definition lift {A} (o : outcome A) : M A := λ s, (o, s).

Definition bind {A B} (m : M A) (k : A → M B) : M B :=
  λ s, match m s with
       | (Return a, s') => k a s'
       | (Abort code, s') => (Abort code, s')
       | (Raise e, s') => (Raise e, s')
       | (OutOfFuel, s') => (OutOfFuel, s')
       end.

(** [try: body except: handler]. The bare [except:] catches every
    exception, the [HTTPException] of [abort] included. *)
Definition try_except {A} (body handler : M A) : M A :=
  λ s, match body s with
       | (Return a, s') => (Return a, s')
       | (Abort _, s') => handler s'
       | (Raise _, s') => handler s'
       | (OutOfFuel, s') => (OutOfFuel, s')
       end.

Notation "'let*' x ':=' m 'in' k" := (bind m (λ x, k))
  (at level 10, x name, m at level 100, k at level 200, only parsing).
Notation "'run' m 'in' k" := (bind m (λ _, k))
  (at level 10, m at level 100, k at level 200, only parsing).

(** ** Patterns of the store: [ILIKE]

    The tests configure PostgreSQL. In a [LIKE] pattern [%] matches any
    sequence of characters, [_] any single character, and a backslash makes
    the next character literal. [ILIKE] compares without regard to case;
    case folding is modelled on ASCII letters. *)

Definition ascii_lower (c : ascii) : ascii :=
  let n := nat_of_ascii c in
  if ((65 <=? n) && (n <=? 90))%nat then ascii_of_nat (n + 32) else c.

Fixpoint lower (s : string) : string :=
  match s with
  | EmptyString => EmptyString
  | String c s' => String (ascii_lower c) (lower s')
  end.

Fixpoint like_match (p s : string) {struct p} : bool :=
  match p with
  | EmptyString => match s with EmptyString => true | String _ _ => false end
  | String "%" p' =>
      (fix any (s : string) : bool :=
         like_match p' s ||
         match s with EmptyString => false | String _ s' => any s' end) s
  | String "_" p' =>
      match s with EmptyString => false | String _ s' => like_match p' s' end
  | String "\" p' =>
      match p' with
      | EmptyString => false
      | String c p'' =>
          match s with
          | EmptyString => false
          | String x s' => Ascii.eqb x c && like_match p'' s'
          end
      end
  | String c p' =>
      match s with
      | EmptyString => false
      | String x s' => Ascii.eqb x c && like_match p' s'
      end
  end.

Definition ilike (text pattern : string) : bool :=
  like_match (lower pattern) (lower text).

(** The property the search is documented to have: the term occurs in the
    text as a substring, without regard to case. *)
Fixpoint is_substring (t s : string) : bool :=
  String.prefix t s ||
  match s with
  | EmptyString => false
  | String _ s' => is_substring t s'
  end.

Definition contains_ci (text term : string) : bool :=
  is_substring (lower term) (lower text).

(** The characters a [LIKE] pattern gives a meaning of their own. *)
Definition is_wildcard (c : ascii) : bool :=
  Ascii.eqb c "%" || Ascii.eqb c "_" || Ascii.eqb c "\".

(** A term none of whose characters is special in a pattern. *)
Fixpoint plain_term (t : string) : bool :=
  match t with
  | EmptyString => true
  | String c t' => negb (is_wildcard c) && plain_term t'
  end.

(** ** Queries *)

Definition Question_id_le (q1 q2 : Question.t) : Prop :=
  Question.id q1 ≤ Question.id q2.
#[export] Instance Question_id_le_dec : RelDecision Question_id_le.
Proof. intros q1 q2. unfold Question_id_le. apply _. Defined.

(** [Question.query.all()] *)
Definition Question_query_all : M (list Question.t) :=
  λ s, (Return (questions_table s), s).

(** [Question.query.order_by(Question.id).all()] *)
Definition Question_query_order_by_id_all : M (list Question.t) :=
  λ s, (Return (merge_sort Question_id_le (questions_table s)), s).

(** [Question.query.filter_by(category=c).all()] *)
Definition Question_query_filter_by_category (c : Z) : M (list Question.t) :=
  λ s, (Return (filter (λ q, Question.category q = c) (questions_table s)), s).

(** [Question.query.filter(Question.question.ilike(pattern)).all()] *)
Definition Question_query_filter_ilike (pattern : string) : M (list Question.t) :=
  λ s, (Return (filter (λ q, ilike (Question.question q) pattern = true)
                       (questions_table s)), s).

(** [Question.query.get(id)]: the row with that primary key, or [None]. *)
Definition Question_query_get (id : Z) : M (option Question.t) :=
  λ s, (Return (head (filter (λ q, Question.id q = id) (questions_table s))), s).

(** [Category.query.all()] *)
Definition Category_query_all : M (list Category.t) :=
  λ s, (Return (categories_table s), s).

(** [Category.query.filter_by(id=id).one_or_none()] *)
Definition Category_query_filter_by_id_one_or_none (id : Z) : M (option Category.t) :=
  λ s, match filter (λ c, Category.id c = id) (categories_table s) with
       | [] => (Return None, s)
       | [c] => (Return (Some c), s)
       | _ :: _ :: _ => (Raise MultipleResultsFound, s)
       end.

(** ** Python built-ins the handlers use *)

(** [random.randint(a, b)]: an integer of [a .. b], [ValueError] on an empty
    range. [r] is the entropy the generator supplies for this draw; every
    value of the range is the result for some [r]. *)
Definition random_randint (r : nat) (a b : Z) : outcome Z :=
  if b <? a then Raise ValueError
  else Return (a + Z.of_nat r mod (b - a + 1)).

(** [l[i]] on a list: a negative index counts from the end, an index out of
    range raises [IndexError]. *)
Definition py_getitem {A} (l : list A) (i : Z) : outcome A :=
  let len := Z.of_nat (length l) in
  let j := if i <? 0 then i + len else i in
  if (j <? 0) || (len <=? j) then Raise IndexError
  else match l !! Z.to_nat j with
       | Some x => Return x
       | None => Raise IndexError
       end.

(** [str(v)] inside an f-string, for a value that is a string or [None]. *)
Definition py_str (v : option string) : string :=
  match v with
  | Some s => s
  | None => "None"
  end.

(** [d.get(key)] on a decoded JSON object: [None] for a missing key. *)
Definition dict_get (d : gmap string json) (key : string) : json :=
  default JNull (d !! key).

(** [key in d] *)
Definition dict_in (key : string) (d : gmap string json) : bool :=
  bool_decide (is_Some (d !! key)).

(** ** Responses *)

Inductive payload : Type :=
  | CategoriesPayload (categories : gmap Z string)
  | QuestionsPayload (total_questions : nat) (categories : gmap Z string)
                     (questions : list json)
  | MessagePayload (message : string)
  | SearchPayload (questions : list json) (total_questions : nat)
  | CategoryQuestionsPayload (questions : list json) (total_questions : nat)
                             (current_category : string)
  | QuizPayload (question : json).

(** [jsonify(...), code] *)
Definition response : Type := payload * Z.

(** ** Request bodies *)

(** [POST /questions/search]: [{searchTerm}]; [None] when the key is absent
    or null. *)
Record SearchBody : Type := { searchTerm : option string }.

(** [POST /quizzes]: [{previous_questions: [id...], quiz_category: {type, id}}];
    a field is [None] when the key is absent or null. *)
Record QuizCategory : Type := { qc_type : string; qc_id : Z }.
Record QuizBody : Type := {
  previous_questions : option (list Z);
  quiz_category : option QuizCategory
}.

(** ** flaskr/__init__.py: the request handlers *)

Section Handlers.

(** The writing half of [models.py], which is not among the sources:
    [Question(question=.., answer=.., difficulty=.., category=..).insert()]
    and [question.delete()]. Each gives the store after the write, or
    [None] when the store faults. *)
Variable Question_insert : json → json → json → json → Store → option Store.
Variable Question_delete : Question.t → Store → option Store.

Definition insert (question answer difficulty category : json) : M unit :=
  λ s, match Question_insert question answer difficulty category s with
       | Some s' => (Return (), s')
       | None => (Raise StoreFault, s)
       end.

(** [question.delete()] on the result of [Question.query.get(id)]; on
    [None] the attribute lookup raises. *)
Definition delete (question : option Question.t) : M unit :=
  λ s, match question with
       | None => (Raise AttributeError, s)
       | Some q =>
           match Question_delete q s with
           | Some s' => (Return (), s')
           | None => (Raise StoreFault, s)
           end
       end.

(** [GET /categories] *)
Definition get_categories : M response :=
  try_except
    (let* categories := Category_query_all in
     let categories_list := format_categories categories in
     ret (CategoriesPayload categories_list, 200))
    (abort 500).

(** [GET /questions] *)
Definition get_questions (page_arg : option Z) : M response :=
  let* questions := Question_query_order_by_id_all in
  let number_of_questions := length questions in
  let current_questions :=
    get_paginated_questions page_arg questions QUESTIONS_PER_PAGE in
  if (length current_questions =? 0)%nat then abort 404
  else
    let* categories := Category_query_all in
    let categories_list := format_categories categories in
    ret (QuestionsPayload number_of_questions categories_list current_questions,
         200).

(** [DELETE /questions/<int:id>] *)
Definition delete_question (id : Z) : M response :=
  try_except
    (let* question := Question_query_get id in
     run delete question in
     ret (MessagePayload "Question is deleted successfully", 200))
    (abort 422).

(** [POST /questions] *)
Definition create_question (data : gmap string json) : M response :=
  let question := dict_get data "question" in
  let answer := dict_get data "answer" in
  let difficulty := dict_get data "difficulty" in
  let category := dict_get data "category" in
  if negb (dict_in "question" data && dict_in "answer" data &&
           dict_in "difficulty" data && dict_in "category" data)
  then abort 422
  else if py_eq_empty_str question || py_eq_empty_str answer ||
          py_eq_empty_str difficulty || py_eq_empty_str category
  then abort 422
  else
    try_except
      (run insert question answer difficulty category in
       ret (MessagePayload "Question is created successfully", 201))
      (abort 422).

(** [POST /questions/search] *)
Definition search_questions (body : SearchBody) (page_arg : option Z)
    : M response :=
  let search_term := searchTerm body in
  if bool_decide (search_term = Some EmptyString) then abort 422
  else
    try_except
      (let* questions :=
         Question_query_filter_ilike ("%" ++ py_str search_term ++ "%") in
       if (length questions =? 0)%nat then abort 404
       else
         let paginated_questions :=
           get_paginated_questions page_arg questions QUESTIONS_PER_PAGE in
         let* all_questions := Question_query_all in
         ret (SearchPayload paginated_questions (length all_questions), 200))
      (abort 404).

(** [GET /categories/<int:id>/questions]; [jsonify] without a code is 200. *)
Definition get_questions_by_category (id : Z) (page_arg : option Z)
    : M response :=
  let* category := Category_query_filter_by_id_one_or_none id in
  match category with
  | None => abort 422
  | Some category =>
      let* questions := Question_query_filter_by_category id in
      let paginated_questions :=
        get_paginated_questions page_arg questions QUESTIONS_PER_PAGE in
      ret (CategoryQuestionsPayload paginated_questions (length questions)
                                    (Category.type category), 200)
  end.

(** The source of randomness: [draw k] is the entropy behind the [k]-th
    call of [random.randint] in a request. *)
Variable draw : nat → nat.

(** [questions[random.randint(0, len(questions)-1)]], as the [k]-th draw. *)
Definition random_question (k : nat) (questions : list Question.t)
    : outcome Question.t :=
  match random_randint (draw k) 0 (Z.of_nat (length questions) - 1) with
  | Return i => py_getitem questions i
  | Abort code => Abort code
  | Raise e => Raise e
  | OutOfFuel => OutOfFuel
  end.

(** The [while question_found:] loop, run for at most [fuel] tests of its
    body; [k] is the number of the next draw. *)
Fixpoint quiz_loop (fuel k : nat) (questions : list Question.t)
    (previous_questions : list Z) (next_question : Question.t)
    : outcome Question.t :=
  match fuel with
  | O => OutOfFuel
  | S fuel' =>
      if bool_decide (Question.id next_question ∈ previous_questions) then
        match random_question k questions with
        | Return q => quiz_loop fuel' (S k) questions previous_questions q
        | Abort code => Abort code
        | Raise e => Raise e
        | OutOfFuel => OutOfFuel
        end
      else Return next_question
  end.

(** [POST /quizzes] *)
Definition play_random_quiz_question (fuel : nat) (body : QuizBody)
    : M response :=
  match quiz_category body, previous_questions body with
  | Some quiz_category, Some previous_questions =>
      let* questions :=
        (if qc_id quiz_category =? 0 then Question_query_all
         else Question_query_filter_by_category (qc_id quiz_category)) in
      let* next_question := lift (random_question 0 questions) in
      let* next_question :=
        lift (quiz_loop fuel 1 questions previous_questions next_question) in
      ret (QuizPayload (format next_question), 200)
  | _, _ => abort 400
  end.

End Handlers.

(** ** flaskr/__init__.py: routes and error handlers *)

(** The body of a rendered response: the payload of a handler, the fixed
    JSON body of an error handler ([success] is [False] there), or the
    framework's own error page when no handler is registered for a code. *)
Inductive http_body : Type :=
  | SuccessBody (p : payload)
  | ErrorBody (error : Z) (message : string)
  | DefaultErrorPage.

(** [@app.errorhandler(400)] *)
Definition bad_request : http_body * Z :=
  (ErrorBody 400 "Bad Request", 400).

(** [@app.errorhandler(404)] *)
Definition not_found : http_body * Z :=
  (ErrorBody 404 "Not Found", 404).

(** [@app.errorhandler(500)] *)
Definition internal_server_error : http_body * Z :=
  (ErrorBody 500 "Internal Server Error, Please Try Again Later", 500).

(** [@app.errorhandler(422)] *)
Definition unprocesable_entity : http_body * Z :=
  (ErrorBody 422 "Unprocessable Entity", 422).

(** The handlers registered with [@app.errorhandler]. *)
Definition errorhandler (code : Z) : option (http_body * Z) :=
  if code =? 400 then Some bad_request
  else if code =? 404 then Some not_found
  else if code =? 500 then Some internal_server_error
  else if code =? 422 then Some unprocesable_entity
  else None.

(** What the client receives for an outcome: the response of the handler;
    for [abort(code)] the registered error handler, or the framework's page
    for that code; for an exception that escapes, the handler registered
    for 500. An unfinished loop gives no response. *)
Definition respond (o : outcome response) : option (http_body * Z) :=
  match o with
  | Return (p, code) => Some (SuccessBody p, code)
  | Abort code => Some (default (DefaultErrorPage, code) (errorhandler code))
  | Raise _ => Some internal_server_error
  | OutOfFuel => None
  end.

(** The routes of the application, [@app.route(...)], with what each takes
    from the request. *)
Inductive request : Type :=
  | GET_categories
  | GET_questions (page_arg : option Z)
  | DELETE_questions (id : Z)
  | POST_questions (data : gmap string json)
  | POST_questions_search (body : SearchBody) (page_arg : option Z)
  | GET_categories_questions (id : Z) (page_arg : option Z)
  | POST_quizzes (body : QuizBody).

Definition dispatch
    (Question_insert : json → json → json → json → Store → option Store)
    (Question_delete : Question.t → Store → option Store)
    (draw : nat → nat) (fuel : nat) (req : request) : M response :=
  match req with
  | GET_categories => get_categories
  | GET_questions page_arg => get_questions page_arg
  | DELETE_questions id => delete_question Question_delete id
  | POST_questions data => create_question Question_insert data
  | POST_questions_search body page_arg => search_questions body page_arg
  | GET_categories_questions id page_arg => get_questions_by_category id page_arg
  | POST_quizzes body => play_random_quiz_question draw fuel body
  end.

(** The status codes each route is written to answer with. *)
Definition route_codes (req : request) : list Z :=
  match req with
  | GET_categories => [200; 500]
  | GET_questions _ => [200; 404]
  | DELETE_questions _ => [200; 422]
  | POST_questions _ => [201; 422]
  | POST_questions_search _ _ => [200; 404; 422]
  | GET_categories_questions _ _ => [200; 422; 500]
  | POST_quizzes _ => [200; 400; 500]
  end.

(** The pages [1 .. n] of a list, one after the other. *)
Definition pages_upto {A} `{Formattable A} (n : nat) (questions : list A)
    : list json :=
  mjoin ((λ N : nat,
            get_paginated_questions (Some (Z.of_nat N)) questions
              QUESTIONS_PER_PAGE) <$> seq 1 n).

(** The pool of a quiz request: every question for category id 0, the
    questions of the category otherwise. *)
Definition quiz_pool (category_id : Z) (s : Store) : list Question.t :=
  if category_id =? 0 then questions_table s
  else filter (λ q, Question.category q = category_id) (questions_table s).

(** The questions that contain the term, as the documentation of the
    search has it. *)
Definition matching_questions (term : string) (s : Store) : list Question.t :=
  filter (λ q, contains_ci (Question.question q) term = true) (questions_table s).

(** A handler that leaves the store as it found it. *)
Definition read_only {A} (m : M A) : Prop := ∀ s, (m s).2 = s.

(** The entry a category contributes to the formatted mapping. *)
Definition category_entry (c : Category.t) : Z * string :=
  (Category.id c, Category.type c).

(** ** A concrete store for the examples

    An instance of the writing half of the store: the insert accepts two
    strings and two integers and appends a row under a fresh id, the delete
    removes the row with the question's id. *)

Definition fresh_id (questions : list Question.t) : Z :=
  1 + foldr Z.max 0 (Question.id <$> questions).

Definition sample_insert (question answer difficulty category : json) (s : Store)
    : option Store :=
  match question, answer, difficulty, category with
  | JStr q, JStr a, JNum d, JNum c =>
      Some {| questions_table :=
                questions_table s ++
                [Question.Build (fresh_id (questions_table s)) q a c d];
              categories_table := categories_table s |}
  | _, _, _, _ => None
  end.

Definition sample_delete (q : Question.t) (s : Store) : option Store :=
  Some {| questions_table :=
            filter (λ q', Question.id q' ≠ Question.id q) (questions_table s);
          categories_table := categories_table s |}.

Definition sample_categories : list Category.t :=
  [Category.Build 1 "Science"; Category.Build 2 "Art"].

Definition sample_questions : list Question.t :=
  [Question.Build 1 "What is the largest lake in Africa?" "Lake Victoria" 1 2;
   Question.Build 2 "Who painted the Mona Lisa?" "Leonardo da Vinci" 2 3].

Definition sample_store : Store :=
  {| questions_table := sample_questions; categories_table := sample_categories |}.

Definition sample_data : gmap string json :=
  <["question" := JStr "Test Question"]>
    (<["answer" := JStr "Test Answer"]>
       (<["difficulty" := JNum 1]> (<["category" := JNum 1]> ∅))).

(** ** Facts about slicing *)

Lemma py_slice_nonneg {A} (l : list A) (start stop : Z) :
  0 ≤ start → 0 ≤ stop - start →
  py_slice l start stop = take (Z.to_nat (stop - start)) (drop (Z.to_nat start) l).
Proof.
  intros Hs Hd. unfold py_slice, slice_bound.
  assert (Hstart : (start <? 0) = false) by lia.
  assert (Hstop : (stop <? 0) = false) by lia.
  rewrite Hstart, Hstop.
  destruct (decide (start ≤ Z.of_nat (length l))) as [Hle|Hgt].
  - rewrite (Z.min_l start) by lia.
    destruct (decide (stop ≤ Z.of_nat (length l))) as [Hle'|Hgt'].
    + by rewrite (Z.min_l stop) by lia.
    + rewrite (Z.min_r stop) by lia.
      rewrite !take_ge; [done | | ]; rewrite length_drop; lia.
  - rewrite (Z.min_r start), (Z.min_r stop) by lia.
    rewrite !drop_ge by lia. by rewrite !take_nil.
Qed.

Lemma py_slice_to_zero {A} (l : list A) (start : Z) :
  start < 0 → py_slice l start 0 = [].
Proof.
  intros Hneg. unfold py_slice, slice_bound.
  assert (Hstart : (start <? 0) = true) by lia.
  rewrite Hstart. change (0 <? 0) with false. cbv iota.
  rewrite (Z.min_l 0) by lia.
  replace (Z.to_nat (0 - Z.max (start + Z.of_nat (length l)) 0)) with 0%nat by lia.
  done.
Qed.

(** ** Pagination *)

Lemma get_paginated_questions_take_drop {A} `{Formattable A}
    (N : Z) (questions : list A) :
  1 ≤ N →
  get_paginated_questions (Some N) questions QUESTIONS_PER_PAGE =
  take 10 (drop (Z.to_nat ((N - 1) * 10)) (format <$> questions)).
Proof.
  intros HN. unfold get_paginated_questions, args_get_page, QUESTIONS_PER_PAGE.
  simpl default. rewrite py_slice_nonneg by lia.
  by replace (Z.to_nat ((N - 1) * 10 + 10 - (N - 1) * 10)) with 10%nat by lia.
Qed.

(** C3. With page size 10 and a page number [N ≥ 1], the page has at most
    10 items, its item [i] (for [i < 10]) is item [(N-1)*10 + i] of the
    formatted list, present exactly when that index exists, and a page
    that starts at or beyond the end of the data is empty. *)
Theorem get_paginated_questions_page {A} `{Formattable A}
    (N : Z) (questions : list A) :
  1 ≤ N →
  let page := get_paginated_questions (Some N) questions QUESTIONS_PER_PAGE in
  (length page ≤ 10)%nat ∧
  (∀ i : nat, (i < 10)%nat →
     page !! i = (format <$> questions) !! (Z.to_nat ((N - 1) * 10) + i)%nat) ∧
  (Z.of_nat (length questions) ≤ (N - 1) * 10 → page = []).
Proof.
  intros HN page. subst page. rewrite get_paginated_questions_take_drop by done.
  split; [|split].
  - rewrite length_take. lia.
  - intros i Hi. rewrite lookup_take_lt by done. by rewrite lookup_drop.
  - intros Hlen. rewrite drop_ge; [done|]. rewrite length_fmap. lia.
Qed.

Lemma get_paginated_questions_page_witness :
  1 ≤ 2 ∧
  get_paginated_questions (Some 2)
    ((λ i, Question.Build i "q" "a" 1 1) <$> seqZ 1 12)
    QUESTIONS_PER_PAGE !! 1%nat =
  Some (Question.format (Question.Build 12 "q" "a" 1 1)).
Proof.
  split; [lia|].
  destruct (get_paginated_questions_page 2
              ((λ i, Question.Build i "q" "a" 1 1) <$> seqZ 1 12) ltac:(lia)) as (_ & Hitem & _).
  rewrite (Hitem 1%nat) by lia. reflexivity.
Defined.

(** C10. For page number 0 the slice runs from offset -10 to offset 0 and is
    empty whatever the list, so [GET /questions?page=0] always takes the
    empty-page branch and leaves through [abort(404)]. *)
Theorem get_paginated_questions_page_zero :
  (∀ (A : Type) (F : Formattable A) (questions : list A),
     get_paginated_questions (Some 0) questions QUESTIONS_PER_PAGE = []) ∧
  (∀ s : Store, get_questions (Some 0) s = (Abort 404, s)).
Proof.
  assert (Hempty : ∀ (A : Type) (F : Formattable A) (questions : list A),
            get_paginated_questions (Some 0) questions QUESTIONS_PER_PAGE = []).
  { intros A F questions.
    unfold get_paginated_questions, args_get_page, QUESTIONS_PER_PAGE.
    simpl default. change ((0 - 1) * 10) with (-10).
    change (-10 + 10) with 0. by apply py_slice_to_zero. }
  split; [done|].
  intros s. unfold get_questions, bind, Question_query_order_by_id_all.
  by rewrite Hempty.
Qed.

(** ** The category formatter *)

Lemma format_categories_foldl (categories : list Category.t) (acc : gmap Z string) :
  foldl (λ categories_list category,
           <[Category.id category := Category.type category]> categories_list)
        acc categories =
  list_to_map (reverse (category_entry <$> categories)) ∪ acc.
Proof.
  revert acc. induction categories as [|c categories IH]; intros acc; simpl.
  - by rewrite (left_id_L ∅ (∪)).
  - rewrite IH, reverse_cons, list_to_map_app. simpl.
    rewrite <-(assoc_L (∪)). f_equal.
    by rewrite insert_empty, <-insert_union_singleton_l.
Qed.

Lemma format_categories_list_to_map (categories : list Category.t) :
  format_categories categories =
  list_to_map (reverse (category_entry <$> categories)).
Proof.
  unfold format_categories. rewrite format_categories_foldl.
  by rewrite (right_id_L ∅ (∪)).
Qed.

Lemma category_entry_keys (categories : list Category.t) :
  (reverse (category_entry <$> categories)).*1 = reverse (Category.id <$> categories).
Proof. rewrite fmap_reverse. f_equal. by rewrite <-list_fmap_compose. Qed.

(** C6. For categories with pairwise different ids the formatter returns a
    mapping with exactly one entry per record, from the record's id to its
    type: the size of the mapping is the length of the input, its entries are
    those of the records, and a reordering of the input gives the same
    mapping. *)
Theorem format_categories_unique_ids (categories : list Category.t) :
  NoDup (Category.id <$> categories) →
  size (format_categories categories) = length categories ∧
  (∀ (k : Z) (v : string),
     format_categories categories !! k = Some v ↔
     ∃ c, c ∈ categories ∧ Category.id c = k ∧ Category.type c = v) ∧
  (∀ categories', categories' ≡ₚ categories →
     format_categories categories' = format_categories categories).
Proof.
  intros Hnodup.
  assert (Hkeys : NoDup (reverse (category_entry <$> categories)).*1).
  { by rewrite category_entry_keys, reverse_Permutation. }
  split; [|split].
  - rewrite format_categories_list_to_map, map_size_list_to_map by done.
    by rewrite length_reverse, length_fmap.
  - intros k v. rewrite format_categories_list_to_map.
    rewrite <-elem_of_list_to_map by done.
    rewrite elem_of_reverse, list_elem_of_fmap. unfold category_entry.
    split.
    + intros (c & Heq & Hin). exists c. by simplify_eq.
    + intros (c & Hin & <- & <-). by exists c.
  - intros categories' Hperm. rewrite !format_categories_list_to_map.
    apply list_to_map_proper.
    + by rewrite category_entry_keys, reverse_Permutation, Hperm.
    + by rewrite !reverse_Permutation, Hperm.
Qed.

Lemma format_categories_unique_ids_witness :
  NoDup (Category.id <$> [Category.Build 2 "Art"; Category.Build 1 "Science"]) ∧
  size (format_categories [Category.Build 2 "Art"; Category.Build 1 "Science"]) = 2%nat.
Proof.
  assert (Hnodup : NoDup (Category.id <$>
            [Category.Build 2 "Art"; Category.Build 1 "Science"])).
  { simpl. apply (bool_decide_unpack _). reflexivity. }
  split; [exact Hnodup|].
  exact (proj1 (format_categories_unique_ids _ Hnodup)).
Defined.

(** ** Creating a question *)

(** C4. [POST /questions]: when the four fields are present, none of them
    is the empty string and the insert succeeds, the handler answers with
    the confirmation and code 201, the store being the one the insert left;
    when a field is missing or empty, or the insert faults, it leaves
    through [abort(422)] with the store unchanged. *)
Theorem create_question_codes
    (Question_insert : json → json → json → json → Store → option Store)
    (data : gmap string json) (s : Store) :
  let question := dict_get data "question" in
  let answer := dict_get data "answer" in
  let difficulty := dict_get data "difficulty" in
  let category := dict_get data "category" in
  let present :=
    is_Some (data !! "question") ∧ is_Some (data !! "answer") ∧
    is_Some (data !! "difficulty") ∧ is_Some (data !! "category") in
  let nonempty :=
    question ≠ JStr "" ∧ answer ≠ JStr "" ∧
    difficulty ≠ JStr "" ∧ category ≠ JStr "" in
  (present → nonempty →
   ∀ s', Question_insert question answer difficulty category s = Some s' →
     create_question Question_insert data s =
     (Return (MessagePayload "Question is created successfully", 201), s')) ∧
  (¬ present ∨ ¬ nonempty ∨
   Question_insert question answer difficulty category s = None →
     create_question Question_insert data s = (Abort 422, s)).
Proof.
  intros question answer difficulty category present nonempty.
  assert (Hempty : ∀ v, py_eq_empty_str v = true ↔ v = JStr "").
  { intros v. destruct v as [| | |[|]| |]; simpl; split; (done || congruence). }
  assert (Hpresent : dict_in "question" data && dict_in "answer" data &&
                     dict_in "difficulty" data && dict_in "category" data = true
                     ↔ present).
  { unfold dict_in, present. rewrite !andb_true_iff, !bool_decide_eq_true. tauto. }
  assert (Hnonempty : py_eq_empty_str question || py_eq_empty_str answer ||
                      py_eq_empty_str difficulty || py_eq_empty_str category = false
                      ↔ nonempty).
  { unfold nonempty. rewrite !orb_false_iff, <-!Hempty, !not_true_iff_false. tauto. }
  unfold create_question. fold question answer difficulty category.
  destruct (dict_in "question" data && dict_in "answer" data &&
            dict_in "difficulty" data && dict_in "category" data) eqn:Hin; simpl.
  - destruct (py_eq_empty_str question || py_eq_empty_str answer ||
              py_eq_empty_str difficulty || py_eq_empty_str category) eqn:Hemp; simpl.
    + split.
      * intros _ Hne. apply Hnonempty in Hne. congruence.
      * done.
    + unfold try_except, bind, insert, ret, abort. split.
      * intros _ _ s' Hins. by rewrite Hins.
      * intros [Hmiss|[Hne|Hfault]].
        -- destruct Hmiss. by apply Hpresent.
        -- destruct Hne. by apply Hnonempty.
        -- by rewrite Hfault.
  - split.
    + intros Hpres. apply Hpresent in Hpres. congruence.
    + done.
Qed.

Lemma create_question_codes_witness :
  create_question sample_insert sample_data sample_store =
  (Return (MessagePayload "Question is created successfully", 201),
   {| questions_table :=
        sample_questions ++ [Question.Build 3 "Test Question" "Test Answer" 1 1];
      categories_table := sample_categories |}).
Proof.
  apply (proj1 (create_question_codes sample_insert sample_data sample_store)).
  - vm_compute. repeat split; eexists; reflexivity.
  - repeat split; vm_compute; discriminate.
  - reflexivity.
Defined.

(** ** Handlers that only read *)

Section ReadOnly.
Context {A B : Type}.

Lemma read_only_ret (a : A) : read_only (ret a).
Proof. by intros s. Qed.

Lemma read_only_abort (code : Z) : read_only (abort (A := A) code).
Proof. by intros s. Qed.

Lemma read_only_lift (o : outcome A) : read_only (lift o).
Proof. by intros s. Qed.

Lemma read_only_bind (m : M A) (k : A → M B) :
  read_only m → (∀ a, read_only (k a)) → read_only (bind m k).
Proof.
  intros Hm Hk s. unfold bind. specialize (Hm s).
  destruct (m s) as [[a|code|e|] s']; simpl in *; subst; [apply Hk|done..].
Qed.

Lemma read_only_try_except (body handler : M A) :
  read_only body → read_only handler → read_only (try_except body handler).
Proof.
  intros Hb Hh s. unfold try_except. specialize (Hb s).
  destruct (body s) as [[a|code|e|] s']; simpl in *; subst; (done || apply Hh).
Qed.
End ReadOnly.

Lemma read_only_Question_query_all : read_only Question_query_all.
Proof. by intros s. Qed.

Lemma read_only_Question_query_order_by_id_all :
  read_only Question_query_order_by_id_all.
Proof. by intros s. Qed.

Lemma read_only_Question_query_filter_by_category (c : Z) :
  read_only (Question_query_filter_by_category c).
Proof. by intros s. Qed.

Lemma read_only_Question_query_filter_ilike (pattern : string) :
  read_only (Question_query_filter_ilike pattern).
Proof. by intros s. Qed.

Lemma read_only_Category_query_all : read_only Category_query_all.
Proof. by intros s. Qed.

Lemma read_only_Category_query_filter_by_id_one_or_none (id : Z) :
  read_only (Category_query_filter_by_id_one_or_none id).
Proof.
  intros s. unfold Category_query_filter_by_id_one_or_none.
  by destruct (filter _ _) as [|c [|c' l]].
Qed.

Create HintDb read_only.
#[export] Hint Resolve read_only_ret read_only_abort read_only_lift
  read_only_Question_query_all read_only_Question_query_order_by_id_all
  read_only_Question_query_filter_by_category
  read_only_Question_query_filter_ilike read_only_Category_query_all
  read_only_Category_query_filter_by_id_one_or_none : read_only.

Ltac read_only_step :=
  first
    [ progress cbv beta zeta
    | apply read_only_bind; [|intros ?]
    | apply read_only_try_except
    | match goal with
      | |- read_only (if ?b then _ else _) => destruct b
      | |- read_only (match ?o with Some _ => _ | None => _ end) => destruct o
      end
    | solve [auto with read_only] ].

Ltac solve_read_only := repeat read_only_step.

(** C7. The list-questions, search-questions and quiz handlers leave the
    store as they found it, on every request and whatever their outcome; so
    do the two remaining read handlers (categories, questions by category),
    which leaves create and delete as the only handlers that write. *)
Theorem read_handlers_read_only :
  (∀ page_arg, read_only (get_questions page_arg)) ∧
  (∀ body page_arg, read_only (search_questions body page_arg)) ∧
  (∀ draw fuel body, read_only (play_random_quiz_question draw fuel body)) ∧
  read_only get_categories ∧
  (∀ id page_arg, read_only (get_questions_by_category id page_arg)).
Proof.
  split; [|split; [|split; [|split]]].
  - intros page_arg. unfold get_questions. solve_read_only.
  - intros body page_arg. unfold search_questions. solve_read_only.
  - intros draw fuel body. unfold play_random_quiz_question.
    destruct (quiz_category body), (previous_questions body); solve_read_only.
  - unfold get_categories. solve_read_only.
  - intros id page_arg. unfold get_questions_by_category. solve_read_only.
Qed.

(** The two writing handlers do change the store. *)
Example create_and_delete_write :
  (create_question sample_insert sample_data sample_store).2 ≠ sample_store ∧
  (delete_question sample_delete 1 sample_store).2 ≠ sample_store.
Proof. split; vm_compute; discriminate. Qed.

(** ** Searching *)

(** C8. On a successful search the [total_questions] field is the number of
    questions in the store, not the number of matches. *)
Theorem search_questions_total_questions
    (body : SearchBody) (page_arg : option Z) (s : Store) (r : response) :
  (search_questions body page_arg s).1 = Return r →
  ∃ questions,
    r = (SearchPayload questions (length (questions_table s)), 200) ∧
    questions =
      get_paginated_questions page_arg
        (filter (λ q, ilike (Question.question q)
                        ("%" ++ py_str (searchTerm body) ++ "%") = true)
                (questions_table s))
        QUESTIONS_PER_PAGE.
Proof.
  unfold search_questions.
  destruct (bool_decide (searchTerm body = Some "")); [done|].
  unfold try_except, bind, Question_query_filter_ilike, Question_query_all,
    ret, abort.
  destruct (length (filter _ (questions_table s)) =? 0)%nat; [done|].
  simpl. intros [= <-]. eauto.
Qed.

Lemma search_questions_total_questions_witness :
  ∃ questions,
    (SearchPayload
       [Question.format
          (Question.Build 1 "What is the largest lake in Africa?"
             "Lake Victoria" 1 2)] 2, 200) =
    (SearchPayload questions (length (questions_table sample_store)), 200).
Proof.
  destruct (search_questions_total_questions
              {| searchTerm := Some "largest lake in Africa"%string |} None
              sample_store _ eq_refl) as (questions & Heq & _).
  exists questions. exact Heq.
Defined.

(** ** The quiz *)

Lemma py_getitem_lookup {A} (l : list A) (i : nat) (x : A) :
  l !! i = Some x → py_getitem l (Z.of_nat i) = Return x.
Proof.
  intros Hx. pose proof (lookup_lt_Some _ _ _ Hx) as Hlt.
  unfold py_getitem. cbv zeta.
  assert (Hneg : (Z.of_nat i <? 0) = false) by lia.
  rewrite Hneg. cbv iota. rewrite Hneg.
  assert (Hin : (Z.of_nat (length l) <=? Z.of_nat i) = false) by lia.
  rewrite Hin. cbn [orb]. by rewrite Nat2Z.id, Hx.
Qed.

Section Quiz.
Variable draw : nat → nat.
Variable questions : list Question.t.
Variable previous : list Z.

(** A draw over a non-empty pool gives the question at the drawn index. *)
Lemma random_question_nonempty (k : nat) :
  questions ≠ [] →
  ∃ q, random_question draw k questions = Return q ∧
       questions !! (draw k mod length questions)%nat = Some q.
Proof.
  intros Hne.
  assert (Hlen : (0 < length questions)%nat).
  { destruct questions; [done|simpl; lia]. }
  assert (Hrange : (Z.of_nat (length questions) - 1 <? 0) = false) by lia.
  assert (Hlt : (draw k mod length questions < length questions)%nat).
  { apply Nat.mod_upper_bound. lia. }
  destruct (lookup_lt_is_Some_2 _ _ Hlt) as [q Hq].
  exists q. split; [|done].
  unfold random_question, random_randint. rewrite Hrange.
  replace (0 + Z.of_nat (draw k) mod (Z.of_nat (length questions) - 1 - 0 + 1))
    with (Z.of_nat (draw k mod length questions)).
  2:{ rewrite Nat2Z.inj_mod, Z.add_0_l. f_equal. lia. }
  by apply py_getitem_lookup.
Qed.

(** A draw over the empty pool raises: [randint(0, -1)] has an empty range. *)
Lemma random_question_empty (k : nat) :
  random_question draw k [] = Raise ValueError.
Proof. reflexivity. Qed.

(** Whatever the loop returns is in the pool and has not been served. *)
Lemma quiz_loop_sound (fuel k : nat) (next q : Question.t) :
  next ∈ questions →
  quiz_loop draw fuel k questions previous next = Return q →
  q ∈ questions ∧ Question.id q ∉ previous.
Proof.
  revert k next. induction fuel as [|fuel IH]; intros k next Hin; simpl; [done|].
  case_bool_decide as Hprev.
  - destruct (random_question_nonempty k) as (q' & -> & Hq').
    { intros Hnil. rewrite Hnil in Hin. by apply elem_of_nil in Hin. }
    apply IH. by eapply list_elem_of_lookup_2.
  - intros [= <-]. done.
Qed.

(** With every question of the pool served, the loop redraws for as long
    as it is run. *)
Lemma quiz_loop_exhausted (fuel k : nat) (next : Question.t) :
  (∀ q, q ∈ questions → Question.id q ∈ previous) →
  next ∈ questions →
  quiz_loop draw fuel k questions previous next = OutOfFuel.
Proof.
  intros Hall. revert k next.
  induction fuel as [|fuel IH]; intros k next Hin; simpl; [done|].
  rewrite bool_decide_eq_true_2 by auto.
  destruct (random_question_nonempty k) as (q' & -> & Hq').
  { intros Hnil. rewrite Hnil in Hin. by apply elem_of_nil in Hin. }
  apply IH. by eapply list_elem_of_lookup_2.
Qed.

(** If the draw number [k + d] gives an unserved question, the loop
    entered with the question of draw number [k] returns within [d + 1]
    tests. *)
Lemma quiz_loop_terminates (d : nat) :
  ∀ (k fuel : nat) (next hit : Question.t),
    random_question draw k questions = Return next →
    random_question draw (k + d) questions = Return hit →
    Question.id hit ∉ previous →
    (d < fuel)%nat →
    ∃ q, quiz_loop draw fuel (S k) questions previous next = Return q.
Proof.
  induction d as [|d IH]; intros k fuel next hit Hnext Hhit Hunseen Hfuel.
  - rewrite Nat.add_0_r in Hhit. rewrite Hnext in Hhit.
    injection Hhit as ->.
    destruct fuel as [|fuel]; [lia|]. simpl.
    rewrite bool_decide_eq_false_2 by done. eauto.
  - destruct fuel as [|fuel]; [lia|]. simpl.
    case_bool_decide as Hprev; [|eauto].
    assert (Hne : questions ≠ []).
    { intros Hnil. rewrite Hnil in Hnext. discriminate. }
    destruct (random_question_nonempty (S k) Hne) as (q' & Hq' & _).
    rewrite Hq'. apply (IH (S k) fuel q' hit); [done| |done|lia].
    by replace (S k + d)%nat with (k + S d)%nat by lia.
Qed.
End Quiz.

(** Once the loop returns, more fuel does not change its answer. *)
Lemma quiz_loop_fuel_mono (draw : nat → nat) (questions : list Question.t)
    (previous : list Z) (fuel fuel' k : nat) (next q : Question.t) :
  quiz_loop draw fuel k questions previous next = Return q →
  (fuel ≤ fuel')%nat →
  quiz_loop draw fuel' k questions previous next = Return q.
Proof.
  revert fuel' k next.
  induction fuel as [|fuel IH]; intros fuel' k next; simpl; [done|].
  intros Hrun Hle. destruct fuel' as [|fuel']; [lia|]. simpl.
  case_bool_decide; [|done].
  destruct (random_question draw k questions); try done.
  apply IH; [done|lia].
Qed.

(** The handler on a request that carries both fields: the pool is drawn
    from once, then the loop runs. *)
Lemma play_random_quiz_question_run (draw : nat → nat) (fuel : nat)
    (body : QuizBody) (s : Store) (qc : QuizCategory) (previous : list Z) :
  quiz_category body = Some qc →
  previous_questions body = Some previous →
  play_random_quiz_question draw fuel body s =
  (match random_question draw 0 (quiz_pool (qc_id qc) s) with
   | Return next =>
       match quiz_loop draw fuel 1 (quiz_pool (qc_id qc) s) previous next with
       | Return q => Return (QuizPayload (format q), 200)
       | Abort code => Abort code
       | Raise e => Raise e
       | OutOfFuel => OutOfFuel
       end
   | Abort code => Abort code
   | Raise e => Raise e
   | OutOfFuel => OutOfFuel
   end, s).
Proof.
  intros Hqc Hprev. unfold play_random_quiz_question, quiz_pool.
  rewrite Hqc, Hprev. unfold bind, lift, ret.
  destruct (qc_id qc =? 0); simpl.
  - destruct (random_question draw 0 (questions_table s)); [|done..].
    by destruct (quiz_loop _ _ _ _ _ _).
  - destruct (random_question draw 0 _); [|done..].
    by destruct (quiz_loop _ _ _ _ _ _).
Qed.

(** C1 (what the code does). On a non-empty pool all of whose ids are in
    [previous_questions] the handler gives no outcome at all: whatever the
    draws and however long it is run, the loop is still redrawing. The
    "no candidates" outcome of the specification does not exist. *)
Theorem quiz_exhausted_pool_never_returns (draw : nat → nat) (fuel : nat)
    (body : QuizBody) (s : Store) (qc : QuizCategory) (previous : list Z) :
  quiz_category body = Some qc →
  previous_questions body = Some previous →
  quiz_pool (qc_id qc) s ≠ [] →
  (∀ q, q ∈ quiz_pool (qc_id qc) s → Question.id q ∈ previous) →
  play_random_quiz_question draw fuel body s = (OutOfFuel, s).
Proof.
  intros Hqc Hprev Hne Hall.
  rewrite (play_random_quiz_question_run _ _ _ _ _ _ Hqc Hprev).
  destruct (random_question_nonempty draw _ 0 Hne) as (next & -> & Hnext).
  rewrite quiz_loop_exhausted; [done|done|].
  by eapply list_elem_of_lookup_2.
Qed.

Lemma quiz_exhausted_pool_never_returns_witness :
  play_random_quiz_question (λ k, k) 1000
    {| previous_questions := Some [1; 2];
       quiz_category := Some {| qc_type := "click"; qc_id := 0 |} |}
    sample_store = (OutOfFuel, sample_store).
Proof.
  apply (quiz_exhausted_pool_never_returns _ _ _ _
           {| qc_type := "click"; qc_id := 0 |} [1; 2]).
  - reflexivity.
  - reflexivity.
  - discriminate.
  - apply Forall_forall. apply (bool_decide_unpack _). vm_compute. reflexivity.
Defined.

(** C9. When both fields are present and the selected pool is empty, the
    first draw raises ([randint(0, -1)] has an empty range): the handler
    ends with that exception, for every source of randomness and every
    bound on the loop, and so never with a 200 response. *)
Theorem quiz_empty_pool_raises (draw : nat → nat) (fuel : nat)
    (body : QuizBody) (s : Store) (qc : QuizCategory) (previous : list Z) :
  quiz_category body = Some qc →
  previous_questions body = Some previous →
  quiz_pool (qc_id qc) s = [] →
  play_random_quiz_question draw fuel body s = (Raise ValueError, s) ∧
  ∀ r, (play_random_quiz_question draw fuel body s).1 ≠ Return r.
Proof.
  intros Hqc Hprev Hnil.
  rewrite (play_random_quiz_question_run _ _ _ _ _ _ Hqc Hprev), Hnil.
  by rewrite random_question_empty.
Qed.

Lemma quiz_empty_pool_raises_witness :
  play_random_quiz_question (λ k, k) 5
    {| previous_questions := Some [];
       quiz_category := Some {| qc_type := "Sports"; qc_id := 6 |} |}
    sample_store = (Raise ValueError, sample_store).
Proof.
  apply (quiz_empty_pool_raises (λ k, k) 5 _ sample_store
           {| qc_type := "Sports"; qc_id := 6 |} []); reflexivity.
Defined.

(** C2. A quiz request whose pool holds a question not yet served. Whenever
    the handler answers, the answer is code 200 with one question, a member
    of the pool whose id is not in [previous_questions]. And it does answer:
    if every index of the pool comes up among the draws of the random
    generator, then from some number of loop tests on the handler returns
    that response. *)
Theorem quiz_unseen_question (draw : nat → nat) (body : QuizBody) (s : Store)
    (qc : QuizCategory) (previous : list Z) :
  quiz_category body = Some qc →
  previous_questions body = Some previous →
  let pool := quiz_pool (qc_id qc) s in
  (∃ q, q ∈ pool ∧ Question.id q ∉ previous) →
  (∀ fuel r,
     (play_random_quiz_question draw fuel body s).1 = Return r →
     ∃ q, r = (QuizPayload (format q), 200) ∧
          q ∈ pool ∧ Question.id q ∉ previous) ∧
  ((∀ i, (i < length pool)%nat → ∃ k, (draw k mod length pool)%nat = i) →
   ∃ fuel0 q,
     q ∈ pool ∧ (Question.id q ∉ previous) ∧
     ∀ fuel, (fuel0 ≤ fuel)%nat →
       play_random_quiz_question draw fuel body s =
       (Return (QuizPayload (format q), 200), s)).
Proof.
  intros Hqc Hprev pool (hit & Hhit & Hunseen).
  assert (Hne : pool ≠ []).
  { intros Hnil. rewrite Hnil in Hhit. by apply elem_of_nil in Hhit. }
  destruct (random_question_nonempty draw pool 0 Hne) as (next & Hnext & Hnext_in).
  apply list_elem_of_lookup_2 in Hnext_in.
  split.
  - intros fuel r.
    rewrite (play_random_quiz_question_run _ _ _ _ _ _ Hqc Hprev).
    fold pool. rewrite Hnext. simpl.
    destruct (quiz_loop draw fuel 1 pool previous next) as [q| | |] eqn:Hloop;
      try done.
    intros [= <-]. exists q. split; [done|].
    by eapply quiz_loop_sound.
  - intros Hfair.
    apply list_elem_of_lookup_1 in Hhit as [i Hi].
    destruct (Hfair i (lookup_lt_Some _ _ _ Hi)) as [k Hk].
    destruct (random_question_nonempty draw pool k Hne) as (hit' & Hdraw & Hlook).
    rewrite Hk, Hi in Hlook. injection Hlook as <-.
    destruct (quiz_loop_terminates draw pool previous k 0 (S k) next hit)
      as [q Hq]; [done|done|done|lia|].
    exists (S k), q.
    destruct (quiz_loop_sound draw pool previous _ _ _ _ Hnext_in Hq) as [Hin Hnot].
    split; [done|split; [done|]].
    intros fuel Hfuel.
    rewrite (play_random_quiz_question_run _ _ _ _ _ _ Hqc Hprev).
    fold pool. rewrite Hnext.
    by rewrite (quiz_loop_fuel_mono _ _ _ _ _ _ _ _ Hq Hfuel).
Qed.

Lemma quiz_unseen_question_witness :
  ∃ fuel0 q,
    q ∈ sample_questions ∧ (Question.id q ∉ [1]) ∧
    ∀ fuel, (fuel0 ≤ fuel)%nat →
      play_random_quiz_question (λ k, k) fuel
        {| previous_questions := Some [1];
           quiz_category := Some {| qc_type := "click"; qc_id := 0 |} |}
        sample_store =
      (Return (QuizPayload (format q), 200), sample_store).
Proof.
  apply (quiz_unseen_question (λ k, k)
           {| previous_questions := Some [1];
              quiz_category := Some {| qc_type := "click"; qc_id := 0 |} |}
           sample_store {| qc_type := "click"; qc_id := 0 |} [1]
           eq_refl eq_refl).
  - exists (Question.Build 2 "Who painted the Mona Lisa?" "Leonardo da Vinci" 2 3).
    split; apply (bool_decide_unpack _); vm_compute; reflexivity.
  - intros i Hi. exists i. apply Nat.mod_small. exact Hi.
Defined.

(** ** [ILIKE] on terms without special characters *)

Lemma like_match_plain_cons (c : ascii) (p s : string) :
  is_wildcard c = false →
  like_match (String c p) s =
  match s with
  | EmptyString => false
  | String x s' => Ascii.eqb x c && like_match p s'
  end.
Proof.
  destruct c as [[] [] [] [] [] [] [] []]; intros Hc;
    first [discriminate Hc | reflexivity].
Qed.

Lemma like_match_percent (p s : string) :
  like_match (String "%" p) s =
  like_match p s ||
  match s with
  | EmptyString => false
  | String _ s' => like_match (String "%" p) s'
  end.
Proof. by destruct s. Qed.

Lemma like_match_percent_only (s : string) : like_match "%" s = true.
Proof.
  induction s as [|x s IH]; [done|].
  rewrite like_match_percent. by rewrite IH, orb_true_r.
Qed.

Lemma like_match_plain_prefix (t s : string) :
  plain_term t = true →
  like_match (t ++ "%") s = String.prefix t s.
Proof.
  revert s. induction t as [|c t IH]; intros s Hplain.
  - simpl append. rewrite like_match_percent_only. by destruct s.
  - simpl in Hplain. apply andb_true_iff in Hplain as [Hc Ht].
    apply negb_true_iff in Hc.
    change (String c t ++ "%")%string with (String c (t ++ "%")).
    rewrite like_match_plain_cons by done.
    destruct s as [|x s]; [done|]. simpl String.prefix.
    rewrite IH by done.
    destruct (ascii_dec c x) as [->|Hne].
    + by rewrite Ascii.eqb_refl.
    + apply not_eq_sym, Ascii.eqb_neq in Hne. by rewrite Hne.
Qed.

Lemma like_match_plain_substring (t s : string) :
  plain_term t = true →
  like_match (String "%" (t ++ "%")) s = is_substring t s.
Proof.
  intros Hplain. induction s as [|x s IH].
  - rewrite like_match_percent, like_match_plain_prefix by done.
    simpl. by rewrite orb_false_r.
  - rewrite like_match_percent, like_match_plain_prefix, IH by done.
    reflexivity.
Qed.

Lemma is_wildcard_lower (c : ascii) : is_wildcard (ascii_lower c) = is_wildcard c.
Proof. by destruct c as [[] [] [] [] [] [] [] []]. Qed.

Lemma plain_term_lower (t : string) : plain_term (lower t) = plain_term t.
Proof.
  induction t as [|c t IH]; [done|]. simpl. by rewrite is_wildcard_lower, IH.
Qed.

Lemma lower_app (a b : string) : lower (a ++ b) = (lower a ++ lower b)%string.
Proof. induction a as [|c a IH]; [done|]. simpl. by rewrite IH. Qed.

(** For a term without special characters the pattern [%term%] matches
    exactly the texts that contain the term, without regard to case. *)
Lemma ilike_plain_term (text term : string) :
  plain_term term = true →
  ilike text ("%" ++ term ++ "%") = contains_ci text term.
Proof.
  intros Hplain. unfold ilike, contains_ci.
  change ("%" ++ term ++ "%")%string with (String "%" (term ++ "%")).
  simpl lower. rewrite lower_app.
  change (ascii_lower "%") with "%"%char. change (lower "%") with "%"%string.
  apply like_match_plain_substring. by rewrite plain_term_lower.
Qed.

(** An empty search term is refused with 422, whatever the store. *)
Lemma search_questions_empty_term (page_arg : option Z) (s : Store) :
  search_questions {| searchTerm := Some "" |} page_arg s = (Abort 422, s).
Proof. reflexivity. Qed.

(** On a non-empty term without special characters the search does what
    its documentation says: 404 when no question contains the term, and
    otherwise 200 with the requested page of the questions that do. *)
Lemma search_questions_plain_term (term : string) (page_arg : option Z) (s : Store) :
  term ≠ ""%string →
  plain_term term = true →
  search_questions {| searchTerm := Some term |} page_arg s =
  (match matching_questions term s with
   | [] => Abort 404
   | _ :: _ =>
       Return (SearchPayload
                 (get_paginated_questions page_arg (matching_questions term s)
                    QUESTIONS_PER_PAGE)
                 (length (questions_table s)), 200)
   end, s).
Proof.
  intros Hne Hplain. unfold search_questions. simpl searchTerm.
  rewrite bool_decide_eq_false_2 by (intros [= Heq]; done).
  unfold try_except, bind, Question_query_filter_ilike, Question_query_all,
    ret, abort. cbn [searchTerm py_str].
  assert (Hfilter :
    filter (λ q, ilike (Question.question q) ("%" ++ term ++ "%") = true)
           (questions_table s) = matching_questions term s).
  { unfold matching_questions. apply list_filter_iff. intros q.
    by rewrite ilike_plain_term. }
  rewrite Hfilter. by destruct (matching_questions term s).
Qed.

(** C5 (what the code does). The term is pasted into the [ILIKE] pattern
    unescaped, so a term made of a pattern character is not searched for as a
    substring: for the term ["_"] no question of the sample store contains
    it, and yet the handler answers 200 with both questions, where the
    documented behaviour is 404. *)
Theorem search_questions_wildcard_term :
  matching_questions "_" sample_store = [] ∧
  search_questions {| searchTerm := Some "_"%string |} None sample_store =
  (Return (SearchPayload (format <$> sample_questions) 2, 200), sample_store).
Proof. split; reflexivity. Qed.

(** ** More on pagination *)

Lemma py_slice_take_drop {A} (l : list A) (start stop : Z) :
  start ≤ stop →
  ∃ lo n : nat,
    py_slice l start stop = take n (drop lo l) ∧ Z.of_nat n ≤ stop - start.
Proof.
  intros Hle.
  unfold py_slice, slice_bound. cbv zeta.
  generalize (Nat2Z.is_nonneg (length l)).
  generalize (Z.of_nat (length l)). intros len Hlen.
  eexists _, _. split; [reflexivity|].
  destruct (Z.ltb_spec start 0), (Z.ltb_spec stop 0); lia.
Qed.

Lemma get_paginated_questions_run_of_items {A} `{Formattable A}
    (page_arg : option Z) (questions : list A) (num_of_questions : Z) :
  0 ≤ num_of_questions →
  ∃ lo n : nat,
    get_paginated_questions page_arg questions num_of_questions =
      take n (drop lo (format <$> questions)) ∧
    Z.of_nat n ≤ num_of_questions.
Proof.
  intros Hnum. unfold get_paginated_questions.
  destruct (py_slice_take_drop (format <$> questions)
              ((args_get_page page_arg - 1) * num_of_questions)
              ((args_get_page page_arg - 1) * num_of_questions + num_of_questions))
    as (lo & n & -> & Hn); [lia|].
  exists lo, n. split; [done|lia].
Qed.

(** X1. Whatever the page number (positive, zero or negative) and for a
    page size that is not negative, the page has at most page-size items and
    is a run of consecutive items of the formatted list. *)
Theorem get_paginated_questions_window {A} `{Formattable A}
    (page_arg : option Z) (questions : list A) (num_of_questions : Z) :
  0 ≤ num_of_questions →
  let page := get_paginated_questions page_arg questions num_of_questions in
  Z.of_nat (length page) ≤ num_of_questions ∧
  ∃ before after, format <$> questions = before ++ page ++ after.
Proof.
  intros Hnum page. subst page.
  destruct (get_paginated_questions_run_of_items page_arg questions
              num_of_questions Hnum) as (lo & n & -> & Hn).
  split.
  - rewrite length_take. lia.
  - exists (take lo (format <$> questions)),
           (drop n (drop lo (format <$> questions))).
    by rewrite take_drop, take_drop.
Qed.

Lemma get_paginated_questions_window_witness :
  0 ≤ 10 ∧
  Z.of_nat (length (get_paginated_questions (Some (-1)) sample_questions 10)) ≤ 10.
Proof.
  split; [lia|].
  exact (proj1 (get_paginated_questions_window (Some (-1)) sample_questions 10
                  ltac:(lia))).
Defined.

(** X2. A negative page number is not refused: page [N < 0] of a list
    with at least [(1 - N) * 10] items is the window of ten items that ends
    [-N * 10] items before the end of the list. *)
Theorem get_paginated_questions_negative_page {A} `{Formattable A}
    (N : Z) (questions : list A) :
  N < 0 →
  (1 - N) * 10 ≤ Z.of_nat (length questions) →
  let page := get_paginated_questions (Some N) questions QUESTIONS_PER_PAGE in
  page = take 10 (drop (length questions - Z.to_nat ((1 - N) * 10))
                       (format <$> questions)) ∧
  length page = 10%nat.
Proof.
  intros HN Hlen page. subst page.
  unfold get_paginated_questions, args_get_page, QUESTIONS_PER_PAGE, py_slice,
    slice_bound. simpl default. rewrite length_fmap.
  assert (Hstart : ((N - 1) * 10 <? 0) = true) by lia.
  assert (Hstop : ((N - 1) * 10 + 10 <? 0) = true) by lia.
  rewrite Hstart, Hstop.
  rewrite !Z.max_l by lia.
  replace (Z.to_nat ((N - 1) * 10 + 10 + Z.of_nat (length questions) -
                     ((N - 1) * 10 + Z.of_nat (length questions)))) with 10%nat by lia.
  replace (Z.to_nat ((N - 1) * 10 + Z.of_nat (length questions)))
    with (length questions - Z.to_nat ((1 - N) * 10))%nat by lia.
  split; [done|].
  rewrite length_take, length_drop, length_fmap. lia.
Qed.

Lemma get_paginated_questions_negative_page_witness :
  -1 < 0 ∧
  get_paginated_questions (Some (-1))
    ((λ i, Question.Build i "q" "a" 1 1) <$> seqZ 1 25) QUESTIONS_PER_PAGE !! 0%nat =
  Some (Question.format (Question.Build 6 "q" "a" 1 1)).
Proof.
  split; [lia|].
  assert (Hlen : (1 - -1) * 10 ≤
                 Z.of_nat (length ((λ i, Question.Build i "q" "a" 1 1) <$> seqZ 1 25)))
    by (vm_compute; congruence).
  rewrite (proj1 (get_paginated_questions_negative_page (-1) _ ltac:(lia) Hlen)).
  reflexivity.
Defined.

(** X3. The pages 1, 2, ..., n, one after the other, are the first [10 * n]
    items of the formatted list: no item is skipped or repeated from one
    page to the next, and [n] pages with [10 * n] at least the length give
    back the whole list. *)
Theorem pages_upto_take {A} `{Formattable A} (n : nat) (questions : list A) :
  pages_upto n questions = take (10 * n) (format <$> questions) ∧
  ((length questions ≤ 10 * n)%nat → pages_upto n questions = format <$> questions).
Proof.
  assert (Htake : pages_upto n questions = take (10 * n) (format <$> questions)).
  { unfold pages_upto. induction n as [|n IH]; [done|].
    rewrite seq_S, fmap_app, join_app, IH. simpl.
    rewrite get_paginated_questions_take_drop by lia. rewrite app_nil_r.
    replace (Z.to_nat ((Z.of_nat (S n) - 1) * 10)) with (10 * n)%nat by lia.
    rewrite take_take_drop. f_equal. lia. }
  split; [done|].
  intros Hlen. rewrite Htake. apply take_ge. by rewrite length_fmap.
Qed.

(** ** Listing the questions *)

#[local] Instance Question_id_le_total : Total Question_id_le.
Proof. intros q1 q2. unfold Question_id_le. lia. Qed.

#[local] Instance Question_id_le_trans : Transitive Question_id_le.
Proof. intros q1 q2 q3. unfold Question_id_le. lia. Qed.

Lemma NoDup_fmap_elem_inj {A B} (f : A → B) (l : list A) (x y : A) :
  NoDup (f <$> l) → x ∈ l → y ∈ l → f x = f y → x = y.
Proof.
  induction l as [|a l IH]; simpl; intros Hnd Hx Hy Hf.
  - by apply elem_of_nil in Hx.
  - apply NoDup_cons in Hnd as [Ha Hnd].
    apply elem_of_cons in Hx as [->|Hx]; apply elem_of_cons in Hy as [->|Hy].
    + done.
    + destruct Ha. rewrite Hf. by apply list_elem_of_fmap_2.
    + destruct Ha. rewrite <-Hf. by apply list_elem_of_fmap_2.
    + by apply IH.
Qed.

Lemma get_questions_run (page_arg : option Z) (s : Store) :
  get_questions page_arg s =
  (let sorted := merge_sort Question_id_le (questions_table s) in
   let page := get_paginated_questions page_arg sorted QUESTIONS_PER_PAGE in
   match page with
   | [] => Abort 404
   | _ :: _ =>
       Return (QuestionsPayload (length sorted)
                 (format_categories (categories_table s)) page, 200)
   end, s).
Proof.
  unfold get_questions, bind, Question_query_order_by_id_all, Category_query_all,
    ret, abort. cbv zeta.
  by destruct (get_paginated_questions _ _ _).
Qed.

(** X4. [GET /questions] for a page number [N ≥ 1] (the default is 1): the
    answer is 404 exactly when the store has at most [(N-1)*10] questions;
    otherwise it is 200 with the number of all questions, the formatted
    categories, and page [N] of the questions in ascending order of id. *)
Theorem get_questions_page (page_arg : option Z) (s : Store) :
  let N := args_get_page page_arg in
  let sorted := merge_sort Question_id_le (questions_table s) in
  1 ≤ N →
  Sorted Question_id_le sorted ∧ sorted ≡ₚ questions_table s ∧
  (Z.of_nat (length (questions_table s)) ≤ (N - 1) * 10 →
     get_questions page_arg s = (Abort 404, s)) ∧
  ((N - 1) * 10 < Z.of_nat (length (questions_table s)) →
     get_questions page_arg s =
     (Return (QuestionsPayload (length (questions_table s))
                (format_categories (categories_table s))
                (take 10 (drop (Z.to_nat ((N - 1) * 10)) (format <$> sorted))),
              200), s)).
Proof.
  intros N sorted HN.
  assert (Hperm : sorted ≡ₚ questions_table s) by apply merge_sort_Permutation.
  assert (Hlen : length sorted = length (questions_table s)) by by rewrite Hperm.
  assert (Hpage : get_paginated_questions page_arg sorted QUESTIONS_PER_PAGE =
                  take 10 (drop (Z.to_nat ((N - 1) * 10)) (format <$> sorted))).
  { rewrite <-(get_paginated_questions_take_drop N sorted HN).
    unfold get_paginated_questions, args_get_page. simpl. by fold N. }
  split; [apply (Sorted_merge_sort _)|]. split; [done|].
  rewrite get_questions_run. cbv zeta. fold sorted. rewrite Hpage, Hlen.
  split; intros Hcount.
  - rewrite drop_ge; [done|]. rewrite length_fmap. lia.
  - destruct (take 10 (drop (Z.to_nat ((N - 1) * 10)) (format <$> sorted)))
      as [|j page] eqn:Htake; [|done].
    assert (Hzero : length (take 10 (drop (Z.to_nat ((N - 1) * 10))
                                     (format <$> sorted))) = 0%nat)
      by by rewrite Htake.
    rewrite length_take, length_drop, length_fmap in Hzero. lia.
Qed.

Lemma get_questions_page_witness :
  get_questions None sample_store =
  (Return (QuestionsPayload 2 (format_categories sample_categories)
             (format <$> sample_questions), 200), sample_store).
Proof.
  refine (proj2 (proj2 (proj2 (get_questions_page None sample_store _))) _).
  - vm_compute. congruence.
  - vm_compute. reflexivity.
Defined.

(** X5. The listing does not depend on the order in which the store holds
    the questions: for questions with pairwise different ids, two stores
    with the same questions in any order and the same categories get the
    same answer on every page. *)
Theorem get_questions_storage_order (page_arg : option Z) (s1 s2 : Store) :
  NoDup (Question.id <$> questions_table s1) →
  questions_table s1 ≡ₚ questions_table s2 →
  categories_table s1 = categories_table s2 →
  (get_questions page_arg s1).1 = (get_questions page_arg s2).1.
Proof.
  intros Hnd Hperm Hcat.
  assert (Hsorted : merge_sort Question_id_le (questions_table s1) =
                    merge_sort Question_id_le (questions_table s2)).
  { apply (Sorted_unique_strong Question_id_le).
    - intros q1 q2 Hq1 Hq2 Hle1 Hle2.
      rewrite merge_sort_Permutation in Hq1.
      rewrite merge_sort_Permutation, <-Hperm in Hq2.
      apply (NoDup_fmap_elem_inj Question.id (questions_table s1)); [done..|].
      unfold Question_id_le in *. lia.
    - apply (Sorted_merge_sort _).
    - apply (Sorted_merge_sort _).
    - by rewrite !merge_sort_Permutation. }
  rewrite !get_questions_run. cbv zeta. by rewrite Hsorted, Hcat.
Qed.

Lemma get_questions_storage_order_witness :
  (get_questions None sample_store).1 =
  (get_questions None
     {| questions_table := reverse sample_questions;
        categories_table := sample_categories |}).1.
Proof.
  apply get_questions_storage_order.
  - apply (bool_decide_unpack _). vm_compute. reflexivity.
  - vm_compute. apply perm_swap.
  - reflexivity.
Defined.

(** ** Rows found by their key *)

Lemma filter_key_absent {A} (f : A → Z) (k : Z) (l : list A) :
  k ∉ f <$> l → filter (λ y, f y = k) l = [].
Proof.
  intros Hk. induction l as [|a l IH]; [done|].
  simpl in Hk. apply not_elem_of_cons in Hk as [Hne Hk].
  rewrite filter_cons_False by done. by apply IH.
Qed.

Lemma filter_key_unique {A} (f : A → Z) (x : A) (l : list A) :
  NoDup (f <$> l) → x ∈ l → filter (λ y, f y = f x) l = [x].
Proof.
  induction l as [|a l IH]; intros Hnd Hx; [by apply elem_of_nil in Hx|].
  simpl in Hnd. apply NoDup_cons in Hnd as [Ha Hnd].
  apply elem_of_cons in Hx as [->|Hx].
  - rewrite filter_cons_True by done. f_equal. by apply filter_key_absent.
  - rewrite filter_cons_False; [by apply IH|].
    intros Heq. destruct Ha. rewrite Heq. by apply list_elem_of_fmap_2.
Qed.

(** ** Deleting a question *)

(** X6. [DELETE /questions/<id>] for an id that no question has: the lookup
    gives [None], calling [delete] on it raises, and the handler answers 422
    without writing to the store. *)
Theorem delete_question_unknown_id
    (Question_delete : Question.t → Store → option Store) (id : Z) (s : Store) :
  id ∉ Question.id <$> questions_table s →
  delete_question Question_delete id s = (Abort 422, s).
Proof.
  intros Hid. unfold delete_question, try_except, bind, Question_query_get, delete.
  by rewrite filter_key_absent.
Qed.

Lemma delete_question_unknown_id_witness :
  delete_question sample_delete 9999 sample_store = (Abort 422, sample_store).
Proof.
  apply delete_question_unknown_id.
  apply (bool_decide_unpack _). vm_compute. reflexivity.
Defined.

(** X7. [DELETE /questions/<id>] for the id of a stored question (ids being
    pairwise different): the store is asked to delete exactly that question;
    the answer is 200 with the store the delete left, or 422 with the store
    unchanged when the delete faults. *)
Theorem delete_question_known_id
    (Question_delete : Question.t → Store → option Store) (q : Question.t)
    (s : Store) :
  NoDup (Question.id <$> questions_table s) →
  q ∈ questions_table s →
  delete_question Question_delete (Question.id q) s =
  match Question_delete q s with
  | Some s' => (Return (MessagePayload "Question is deleted successfully", 200), s')
  | None => (Abort 422, s)
  end.
Proof.
  intros Hnd Hq. unfold delete_question, try_except, bind, Question_query_get, delete.
  rewrite (filter_key_unique Question.id q) by done. simpl.
  by destruct (Question_delete q s).
Qed.

Lemma delete_question_known_id_witness :
  delete_question sample_delete 1 sample_store =
  (Return (MessagePayload "Question is deleted successfully", 200),
   {| questions_table :=
        [Question.Build 2 "Who painted the Mona Lisa?" "Leonardo da Vinci" 2 3];
      categories_table := sample_categories |}).
Proof.
  apply (delete_question_known_id sample_delete
           (Question.Build 1 "What is the largest lake in Africa?"
              "Lake Victoria" 1 2) sample_store).
  - apply (bool_decide_unpack _). vm_compute. reflexivity.
  - apply (bool_decide_unpack _). vm_compute. reflexivity.
Defined.

(** ** Questions of a category *)

(** X8. [GET /categories/<id>/questions] for an id that no category has
    answers 422. *)
Theorem get_questions_by_category_unknown (id : Z) (page_arg : option Z)
    (s : Store) :
  id ∉ Category.id <$> categories_table s →
  get_questions_by_category id page_arg s = (Abort 422, s).
Proof.
  intros Hid.
  unfold get_questions_by_category, bind, Category_query_filter_by_id_one_or_none.
  by rewrite filter_key_absent.
Qed.

Lemma get_questions_by_category_unknown_witness :
  get_questions_by_category 12345678 None sample_store = (Abort 422, sample_store).
Proof.
  apply get_questions_by_category_unknown.
  apply (bool_decide_unpack _). vm_compute. reflexivity.
Defined.

(** X9. [GET /categories/<id>/questions] for the id of a category (ids
    being pairwise different) always answers 200, also when the category has
    no question or the page lies beyond its questions: the body carries the
    requested page of the category's questions, the number of all questions
    of the category, and the category's type. *)
Theorem get_questions_by_category_known (c : Category.t) (page_arg : option Z)
    (s : Store) :
  NoDup (Category.id <$> categories_table s) →
  c ∈ categories_table s →
  let questions :=
    filter (λ q, Question.category q = Category.id c) (questions_table s) in
  get_questions_by_category (Category.id c) page_arg s =
  (Return (CategoryQuestionsPayload
             (get_paginated_questions page_arg questions QUESTIONS_PER_PAGE)
             (length questions) (Category.type c), 200), s).
Proof.
  intros Hnd Hc questions.
  unfold get_questions_by_category, bind, Category_query_filter_by_id_one_or_none.
  by rewrite (filter_key_unique Category.id c).
Qed.

Lemma get_questions_by_category_known_witness :
  get_questions_by_category 2 (Some 1000) sample_store =
  (Return (CategoryQuestionsPayload [] 1 "Art", 200), sample_store).
Proof.
  apply (get_questions_by_category_known (Category.Build 2 "Art") (Some 1000)
           sample_store).
  - apply (bool_decide_unpack _). vm_compute. reflexivity.
  - apply (bool_decide_unpack _). vm_compute. reflexivity.
Defined.

(** ** More on the quiz *)

(** X10. A quiz request that lacks [previous_questions] or [quiz_category]
    is answered 400 before the store is queried and before any draw: so
    also when the store is empty, and however the loop is bounded. *)
Theorem quiz_missing_field (draw : nat → nat) (fuel : nat) (body : QuizBody)
    (s : Store) :
  quiz_category body = None ∨ previous_questions body = None →
  play_random_quiz_question draw fuel body s = (Abort 400, s).
Proof.
  unfold play_random_quiz_question.
  intros [Hmiss|Hmiss]; rewrite Hmiss; [done|].
  by destruct (quiz_category body).
Qed.

Lemma quiz_missing_field_witness :
  play_random_quiz_question (λ k, k) 0
    {| previous_questions := None; quiz_category := None |}
    {| questions_table := []; categories_table := [] |} =
  (Abort 400, {| questions_table := []; categories_table := [] |}).
Proof. apply quiz_missing_field. left. reflexivity. Defined.

(** X11. When a category other than 0 is requested, every question the quiz
    answers with is a stored question of that category whose id is not among
    the previous questions. *)
Theorem quiz_answer_in_category (draw : nat → nat) (fuel : nat) (body : QuizBody)
    (s : Store) (qc : QuizCategory) (previous : list Z) (r : response) :
  quiz_category body = Some qc →
  previous_questions body = Some previous →
  qc_id qc ≠ 0 →
  (play_random_quiz_question draw fuel body s).1 = Return r →
  ∃ q, r = (QuizPayload (format q), 200) ∧
       q ∈ questions_table s ∧
       Question.category q = qc_id qc ∧
       Question.id q ∉ previous.
Proof.
  intros Hqc Hprev Hid.
  rewrite (play_random_quiz_question_run _ _ _ _ _ _ Hqc Hprev). simpl.
  set (pool := quiz_pool (qc_id qc) s).
  destruct (random_question draw 0 pool) as [next| | |] eqn:Hnext; try done.
  destruct (quiz_loop draw fuel 1 pool previous next) as [q| | |] eqn:Hloop;
    try done.
  intros [= <-]. exists q. split; [done|].
  assert (Hne : pool ≠ []) by (by intros Hnil; rewrite Hnil in Hnext).
  destruct (random_question_nonempty draw pool 0 Hne) as (next' & Hnext' & Hin).
  rewrite Hnext in Hnext'. injection Hnext' as <-.
  apply list_elem_of_lookup_2 in Hin.
  destruct (quiz_loop_sound draw pool previous _ _ _ _ Hin Hloop) as [Hq Hunseen].
  subst pool. unfold quiz_pool in Hq.
  apply Z.eqb_neq in Hid. rewrite Hid in Hq.
  apply list_elem_of_filter in Hq as [Hcat Hq]. done.
Qed.

Lemma quiz_answer_in_category_witness :
  ∃ q, (QuizPayload
          (format (Question.Build 1 "What is the largest lake in Africa?"
                     "Lake Victoria" 1 2)), 200) =
       (QuizPayload (format q), 200) ∧
       q ∈ questions_table sample_store ∧
       Question.category q = 1 ∧
       Question.id q ∉ [2].
Proof.
  apply (quiz_answer_in_category (λ k, k) 5
           {| previous_questions := Some [2];
              quiz_category := Some {| qc_type := "Science"; qc_id := 1 |} |}
           sample_store {| qc_type := "Science"; qc_id := 1 |} [2]).
  - reflexivity.
  - reflexivity.
  - discriminate.
  - reflexivity.
Defined.

Lemma play_random_quiz_question_first_draw (draw : nat → nat) (fuel : nat)
    (body : QuizBody) (s : Store) (qc : QuizCategory) (previous : list Z)
    (q : Question.t) :
  quiz_category body = Some qc →
  previous_questions body = Some previous →
  quiz_pool (qc_id qc) s !! (draw 0%nat mod length (quiz_pool (qc_id qc) s))%nat =
    Some q →
  Question.id q ∉ previous →
  (0 < fuel)%nat →
  play_random_quiz_question draw fuel body s =
  (Return (QuizPayload (format q), 200), s).
Proof.
  intros Hqc Hprev Hq Hunseen Hfuel.
  rewrite (play_random_quiz_question_run _ _ _ _ _ _ Hqc Hprev).
  set (pool := quiz_pool (qc_id qc) s) in *.
  assert (Hne : pool ≠ []) by (by intros Hnil; rewrite Hnil in Hq).
  destruct (random_question_nonempty draw pool 0 Hne) as (next & -> & Hnext).
  rewrite Hq in Hnext. injection Hnext as <-.
  destruct fuel as [|fuel]; [lia|]. simpl.
  by rewrite bool_decide_eq_false_2.
Qed.

(** X12. When the first draw gives a question that has not been served, the
    quiz answers with it at the first test of the loop: no further draw is
    made. In particular the first question of a quiz, with no previous
    question, is always the one first drawn. *)
Theorem quiz_first_draw (draw : nat → nat) (fuel : nat) (body : QuizBody)
    (s : Store) (qc : QuizCategory) (previous : list Z) (q : Question.t) :
  quiz_category body = Some qc →
  previous_questions body = Some previous →
  let pool := quiz_pool (qc_id qc) s in
  pool !! (draw 0%nat mod length pool)%nat = Some q →
  Question.id q ∉ previous →
  (0 < fuel)%nat →
  play_random_quiz_question draw fuel body s =
  (Return (QuizPayload (format q), 200), s).
Proof.
  intros Hqc Hprev pool. subst pool.
  by apply play_random_quiz_question_first_draw.
Qed.

Lemma quiz_first_draw_witness :
  play_random_quiz_question (λ k, 7%nat) 1
    {| previous_questions := Some [];
       quiz_category := Some {| qc_type := "click"; qc_id := 0 |} |}
    sample_store =
  (Return (QuizPayload
             (format (Question.Build 2 "Who painted the Mona Lisa?"
                        "Leonardo da Vinci" 2 3)), 200), sample_store).
Proof.
  apply (quiz_first_draw (λ k, 7%nat) 1 _ sample_store
           {| qc_type := "click"; qc_id := 0 |} []).
  - reflexivity.
  - reflexivity.
  - reflexivity.
  - apply not_elem_of_nil.
  - lia.
Defined.

(** X13. No unserved question is out of reach: for every question of the
    pool whose id is not among the previous questions there is a sequence of
    draws for which the quiz answers with that question. *)
Theorem quiz_every_unseen_reachable (body : QuizBody) (s : Store)
    (qc : QuizCategory) (previous : list Z) (q : Question.t) :
  quiz_category body = Some qc →
  previous_questions body = Some previous →
  q ∈ quiz_pool (qc_id qc) s →
  Question.id q ∉ previous →
  ∃ draw, ∀ fuel, (0 < fuel)%nat →
    play_random_quiz_question draw fuel body s =
    (Return (QuizPayload (format q), 200), s).
Proof.
  intros Hqc Hprev Hq Hunseen.
  apply list_elem_of_lookup_1 in Hq as [i Hi].
  exists (λ _, i). intros fuel Hfuel.
  apply (play_random_quiz_question_first_draw _ _ _ _ qc previous);
    [done..| |done|done].
  rewrite Nat.mod_small; [done|]. by eapply lookup_lt_Some.
Qed.

Lemma quiz_every_unseen_reachable_witness :
  ∃ draw, ∀ fuel, (0 < fuel)%nat →
    play_random_quiz_question draw fuel
      {| previous_questions := Some [1];
         quiz_category := Some {| qc_type := "click"; qc_id := 0 |} |}
      sample_store =
    (Return (QuizPayload
               (format (Question.Build 2 "Who painted the Mona Lisa?"
                          "Leonardo da Vinci" 2 3)), 200), sample_store).
Proof.
  apply (quiz_every_unseen_reachable _ sample_store
           {| qc_type := "click"; qc_id := 0 |} [1]).
  - reflexivity.
  - reflexivity.
  - apply (bool_decide_unpack _). vm_compute. reflexivity.
  - apply (bool_decide_unpack _). vm_compute. reflexivity.
Defined.

(** ** More on searching *)

Lemma lower_empty (t : string) : lower t = ""%string ↔ t = ""%string.
Proof. by destruct t. Qed.

Lemma search_questions_run (term : option string) (page_arg : option Z)
    (s : Store) :
  term ≠ Some ""%string →
  search_questions {| searchTerm := term |} page_arg s =
  (let questions :=
     filter (λ q, ilike (Question.question q) ("%" ++ py_str term ++ "%") = true)
            (questions_table s) in
   match questions with
   | [] => Abort 404
   | _ :: _ =>
       Return (SearchPayload
                 (get_paginated_questions page_arg questions QUESTIONS_PER_PAGE)
                 (length (questions_table s)), 200)
   end, s).
Proof.
  intros Hne. unfold search_questions. cbn [searchTerm].
  rewrite bool_decide_eq_false_2 by done.
  unfold try_except, bind, Question_query_filter_ilike, Question_query_all,
    ret, abort. cbv zeta.
  by destruct (filter _ (questions_table s)).
Qed.

(** X14. A search request without [searchTerm] is not refused: [None] is
    not the empty string, and formatted into the pattern it reads [None]. The
    answer is that of a search for that word: 404 unless a question contains
    it, without regard to case. *)
Theorem search_questions_missing_term (page_arg : option Z) (s : Store) :
  search_questions {| searchTerm := None |} page_arg s =
  (match matching_questions "None" s with
   | [] => Abort 404
   | _ :: _ =>
       Return (SearchPayload
                 (get_paginated_questions page_arg (matching_questions "None" s)
                    QUESTIONS_PER_PAGE)
                 (length (questions_table s)), 200)
   end, s).
Proof.
  rewrite search_questions_run by done. cbv zeta. cbn [py_str].
  assert (Hfilter :
    filter (λ q, ilike (Question.question q) ("%" ++ "None" ++ "%") = true)
           (questions_table s) = matching_questions "None" s).
  { unfold matching_questions. apply list_filter_iff. intros q.
    by rewrite ilike_plain_term. }
  by rewrite Hfilter.
Qed.

(** X15. The search does not regard the case of the term: two terms that
    differ only in the case of their ASCII letters get the same answer. *)
Theorem search_questions_case_insensitive (t1 t2 : string)
    (page_arg : option Z) (s : Store) :
  lower t1 = lower t2 →
  search_questions {| searchTerm := Some t1 |} page_arg s =
  search_questions {| searchTerm := Some t2 |} page_arg s.
Proof.
  intros Hlower.
  destruct (decide (t1 = ""%string)) as [->|Hne1].
  { symmetry in Hlower. apply (proj1 (lower_empty t2)) in Hlower. by subst. }
  assert (Hne2 : t2 ≠ ""%string).
  { intros ->. by apply (proj1 (lower_empty t1)) in Hlower. }
  rewrite !search_questions_run by congruence. cbv zeta. cbn [py_str].
  assert (Hfilter :
    filter (λ q, ilike (Question.question q) ("%" ++ t1 ++ "%") = true)
           (questions_table s) =
    filter (λ q, ilike (Question.question q) ("%" ++ t2 ++ "%") = true)
           (questions_table s)).
  { apply list_filter_iff. intros q. unfold ilike.
    change ("%" ++ t1 ++ "%")%string with (String "%" (t1 ++ "%")).
    change ("%" ++ t2 ++ "%")%string with (String "%" (t2 ++ "%")).
    simpl lower. by rewrite !lower_app, Hlower. }
  by rewrite Hfilter.
Qed.

Lemma search_questions_case_insensitive_witness :
  search_questions {| searchTerm := Some "MONA lisa"%string |} None sample_store =
  search_questions {| searchTerm := Some "mona LISA"%string |} None sample_store.
Proof. apply search_questions_case_insensitive. reflexivity. Defined.

(** X16. For a non-empty term without [%], [_] and backslash the search is
    the substring search it is documented to be: 404 when no question
    contains the term (without regard to case); otherwise 200, and every
    question of the answer is a stored question that contains the term. *)
Theorem search_questions_substring (term : string) (page_arg : option Z)
    (s : Store) :
  term ≠ ""%string →
  plain_term term = true →
  ((∀ q, q ∈ questions_table s → contains_ci (Question.question q) term = false) →
   search_questions {| searchTerm := Some term |} page_arg s = (Abort 404, s)) ∧
  ((∃ q, q ∈ questions_table s ∧ contains_ci (Question.question q) term = true) →
   ∃ page,
     search_questions {| searchTerm := Some term |} page_arg s =
     (Return (SearchPayload page (length (questions_table s)), 200), s) ∧
     ∀ j, j ∈ page →
       ∃ q, j = format q ∧ q ∈ questions_table s ∧
            contains_ci (Question.question q) term = true).
Proof.
  intros Hne Hplain. rewrite search_questions_plain_term by done. split.
  - intros Hnone.
    assert (Hnil : matching_questions term s = []).
    { unfold matching_questions.
      induction (questions_table s) as [|q l IH]; [done|].
      rewrite filter_cons_False.
      - apply IH. intros q' Hq'. apply Hnone. by right.
      - rewrite Hnone; [done|by left]. }
    by rewrite Hnil.
  - intros (q & Hq & Hcontains).
    assert (Hin : q ∈ matching_questions term s).
    { unfold matching_questions. by apply list_elem_of_filter. }
    exists (get_paginated_questions page_arg (matching_questions term s)
              QUESTIONS_PER_PAGE).
    split.
    + destruct (matching_questions term s); [by apply elem_of_nil in Hin|done].
    + intros j Hj.
      destruct (get_paginated_questions_run_of_items page_arg
                  (matching_questions term s) QUESTIONS_PER_PAGE)
        as (lo & n & Hpage & _); [done|].
      assert (Hj' : j ∈ format <$> matching_questions term s).
      { rewrite Hpage in Hj.
        by apply (subseteq_drop lo), (subseteq_take n). }
      apply list_elem_of_fmap in Hj' as (q' & -> & Hq').
      unfold matching_questions in Hq'.
      apply list_elem_of_filter in Hq' as [Hc Hq']. eauto.
Qed.

Lemma search_questions_substring_witness :
  ∃ page,
    search_questions {| searchTerm := Some "largest lake in Africa"%string |}
      None sample_store =
    (Return (SearchPayload page (length (questions_table sample_store)), 200),
     sample_store) ∧
    ∀ j, j ∈ page →
      ∃ q, j = format q ∧ q ∈ questions_table sample_store ∧
           contains_ci (Question.question q) "largest lake in Africa" = true.
Proof.
  apply (search_questions_substring "largest lake in Africa" None sample_store).
  - discriminate.
  - reflexivity.
  - exists (Question.Build 1 "What is the largest lake in Africa?"
              "Lake Victoria" 1 2).
    split; [|reflexivity].
    apply (bool_decide_unpack _). vm_compute. reflexivity.
Defined.

(** X17. Unlike the listing, the search does not answer 404 for a page
    beyond the matches: for a term without special characters that some
    question contains, a page [N ≥ 1] that starts at or after the last match
    is answered 200 with an empty list of questions. *)
Theorem search_questions_page_beyond (term : string) (N : Z) (s : Store) :
  term ≠ ""%string →
  plain_term term = true →
  matching_questions term s ≠ [] →
  1 ≤ N →
  Z.of_nat (length (matching_questions term s)) ≤ (N - 1) * 10 →
  search_questions {| searchTerm := Some term |} (Some N) s =
  (Return (SearchPayload [] (length (questions_table s)), 200), s).
Proof.
  intros Hne Hplain Hsome HN Hbeyond.
  rewrite search_questions_plain_term by done.
  destruct (matching_questions term s) as [|q l] eqn:Hmatch; [done|].
  rewrite get_paginated_questions_take_drop by done.
  rewrite drop_ge; [done|]. rewrite length_fmap. lia.
Qed.

Lemma search_questions_page_beyond_witness :
  search_questions {| searchTerm := Some "lake"%string |} (Some 2) sample_store =
  (Return (SearchPayload [] 2, 200), sample_store).
Proof.
  apply (search_questions_page_beyond "lake" 2 sample_store).
  - discriminate.
  - reflexivity.
  - discriminate.
  - lia.
  - vm_compute. congruence.
Defined.

(** ** More on the category formatter *)

Lemma format_categories_snoc (categories : list Category.t) (c : Category.t) :
  format_categories (categories ++ [c]) =
  <[Category.id c := Category.type c]> (format_categories categories).
Proof. unfold format_categories. by rewrite foldl_snoc. Qed.

(** X18. For any sequence of categories, ids repeated or not, the mapping
    sends an id to the type of the last record that carries it, and has no
    entry for an id that no record carries: a later record overwrites an
    earlier one with the same id. *)
Theorem format_categories_last_wins (categories : list Category.t) (k : Z) :
  format_categories categories !! k =
  Category.type <$> last (filter (λ c, Category.id c = k) categories).
Proof.
  induction categories as [|c categories IH] using rev_ind; [done|].
  rewrite format_categories_snoc, filter_app, lookup_insert.
  destruct (decide (Category.id c = k)) as [Heq|Hne].
  - rewrite filter_cons_True, filter_nil by done. by rewrite last_snoc.
  - rewrite filter_cons_False, filter_nil by done. by rewrite app_nil_r.
Qed.

(** X19. The keys of the mapping are exactly the ids that occur in the
    input, and the mapping never has more entries than the input has
    records. *)
Theorem format_categories_dom (categories : list Category.t) :
  dom (format_categories categories) = list_to_set (Category.id <$> categories) ∧
  (size (format_categories categories) ≤ length categories)%nat.
Proof.
  induction categories as [|c categories [IHdom IHsize]] using rev_ind.
  - split; [|done]. unfold format_categories. simpl. by rewrite dom_empty_L.
  - rewrite format_categories_snoc. split.
    + rewrite dom_insert_L, IHdom, fmap_app, list_to_set_app_L.
      change (Category.id <$> [c]) with [Category.id c].
      rewrite list_to_set_singleton_L. apply (comm_L (∪)).
    + rewrite map_size_insert, length_app. simpl.
      destruct (format_categories categories !! Category.id c); simpl; lia.
Qed.

(** ** Routes and error handlers *)

Ltac route_code := apply (bool_decide_unpack _); vm_compute; reflexivity.

Lemma random_question_not_abort (draw : nat → nat) (k : nat)
    (questions : list Question.t) (code : Z) :
  random_question draw k questions ≠ Abort code.
Proof.
  destruct questions as [|q l].
  - by rewrite random_question_empty.
  - destruct (random_question_nonempty draw (q :: l) k) as (q' & -> & _); done.
Qed.

Lemma quiz_loop_not_abort (draw : nat → nat) (questions : list Question.t)
    (previous : list Z) (fuel k : nat) (next : Question.t) (code : Z) :
  quiz_loop draw fuel k questions previous next ≠ Abort code.
Proof.
  revert k next. induction fuel as [|fuel IH]; intros k next; simpl; [done|].
  case_bool_decide; [|done].
  destruct (random_question draw k questions) as [q|code'| |] eqn:Hq; try done.
  by apply random_question_not_abort in Hq.
Qed.

Lemma quiz_outcome (draw : nat → nat) (fuel : nat) (body : QuizBody) (s : Store) :
  match (play_random_quiz_question draw fuel body s).1 with
  | Return (_, code) => code = 200
  | Abort code => code = 400
  | Raise _ | OutOfFuel => True
  end.
Proof.
  destruct (quiz_category body) as [qc|] eqn:Hqc.
  2:{ unfold play_random_quiz_question. by rewrite Hqc. }
  destruct (previous_questions body) as [previous|] eqn:Hprev.
  2:{ unfold play_random_quiz_question. by rewrite Hqc, Hprev. }
  rewrite (play_random_quiz_question_run _ _ _ _ _ _ Hqc Hprev). simpl.
  destruct (random_question draw 0 _) as [next|code| |] eqn:Hnext; try done.
  - destruct (quiz_loop _ _ _ _ _ _) as [q|code| |] eqn:Hloop; try done.
    by apply quiz_loop_not_abort in Hloop.
  - by apply random_question_not_abort in Hnext.
Qed.

Lemma dispatch_outcome
    (Question_insert : json → json → json → json → Store → option Store)
    (Question_delete : Question.t → Store → option Store)
    (draw : nat → nat) (fuel : nat) (req : request) (s : Store) :
  match (dispatch Question_insert Question_delete draw fuel req s).1 with
  | Return (_, code) => code ∈ route_codes req ∧ (code = 200 ∨ code = 201)
  | Abort code => code ∈ route_codes req ∧ code ∈ [400; 404; 422; 500]
  | Raise _ => 500 ∈ route_codes req
  | OutOfFuel => True
  end.
Proof.
  destruct req as [|page_arg|id|data|body page_arg|id page_arg|body]; simpl.
  - split; [route_code|by left].
  - rewrite get_questions_run. cbv zeta.
    destruct (get_paginated_questions _ _ _); simpl;
      (split; [route_code|first [route_code|by left]]).
  - unfold delete_question, try_except, bind, Question_query_get, delete, ret, abort.
    simpl.
    destruct (head _) as [q|]; [destruct (Question_delete q s)|]; simpl;
      (split; [route_code|first [route_code|by left]]).
  - unfold create_question.
    destruct (negb _); [split; route_code|].
    destruct (_ || _); [split; route_code|].
    unfold try_except, bind, insert, ret, abort.
    destruct (Question_insert _ _ _ _ s); simpl;
      (split; [route_code|first [route_code|by right]]).
  - unfold search_questions.
    destruct (bool_decide _); [split; route_code|].
    unfold try_except, bind, Question_query_filter_ilike, Question_query_all,
      ret, abort.
    destruct (length _ =? 0)%nat; simpl;
      (split; [route_code|first [route_code|by left]]).
  - unfold get_questions_by_category, bind,
      Category_query_filter_by_id_one_or_none, ret, abort.
    destruct (filter _ (categories_table s)) as [|c [|c' l]]; simpl;
      first [route_code | (split; [route_code|first [route_code|by left]])].
  - pose proof (quiz_outcome draw fuel body s) as Hquiz.
    destruct (play_random_quiz_question draw fuel body s).1 as [[p code]|code|e|];
      subst; try done; first [route_code | (split; [route_code|first [route_code|by left]])].
Qed.

(** X20. Every response of the application carries a status code of its
    route: 200 or 500 for the categories, 200 or 404 for the listing, 200 or
    422 for a delete, 201 or 422 for a create, 200, 404 or 422 for a search,
    200, 422 or 500 for the questions of a category, 200, 400 or 500 for
    the quiz. *)
Theorem respond_route_codes
    (Question_insert : json → json → json → json → Store → option Store)
    (Question_delete : Question.t → Store → option Store)
    (draw : nat → nat) (fuel : nat) (req : request) (s : Store)
    (body : http_body) (code : Z) :
  respond (dispatch Question_insert Question_delete draw fuel req s).1 =
    Some (body, code) →
  code ∈ route_codes req.
Proof.
  pose proof (dispatch_outcome Question_insert Question_delete draw fuel req s)
    as Hout.
  destruct (dispatch _ _ _ _ req s).1 as [[p c]|c|e|]; simpl.
  - intros [= <- <-]. apply Hout.
  - destruct Hout as [Hroute Hcode]. intros Hresp.
    assert (code = c) as ->; [|done].
    unfold errorhandler in Hresp.
    repeat (apply elem_of_cons in Hcode as [->|Hcode];
            [simpl in Hresp; by injection Hresp|]).
    by apply elem_of_nil in Hcode.
  - by intros [= <- <-].
  - done.
Qed.

Lemma respond_route_codes_witness :
  404 ∈ route_codes (POST_questions_search {| searchTerm := Some "zzz"%string |} None).
Proof.
  apply (respond_route_codes sample_insert sample_delete (λ k, k) 0
           (POST_questions_search {| searchTerm := Some "zzz"%string |} None)
           sample_store (ErrorBody 404 "Not Found") 404).
  reflexivity.
Defined.

(** X21. Every response has the envelope of the application: a success
    body goes with code 200 or 201; every error is rendered by one of the
    four registered error handlers, so that its body carries the status code
    in its [error] field and the framework's own error page is never sent. *)
Theorem respond_envelope
    (Question_insert : json → json → json → json → Store → option Store)
    (Question_delete : Question.t → Store → option Store)
    (draw : nat → nat) (fuel : nat) (req : request) (s : Store)
    (body : http_body) (code : Z) :
  respond (dispatch Question_insert Question_delete draw fuel req s).1 =
    Some (body, code) →
  match body with
  | SuccessBody _ => code = 200 ∨ code = 201
  | ErrorBody error message =>
      error = code ∧ errorhandler code = Some (ErrorBody error message, code)
  | DefaultErrorPage => False
  end.
Proof.
  pose proof (dispatch_outcome Question_insert Question_delete draw fuel req s)
    as Hout.
  destruct (dispatch _ _ _ _ req s).1 as [[p c]|c|e|]; simpl.
  - intros [= <- <-]. apply Hout.
  - destruct Hout as [_ Hcode]. intros Hresp.
    repeat (apply elem_of_cons in Hcode as [->|Hcode];
            [simpl in Hresp; injection Hresp as <- <-; by split|]).
    by apply elem_of_nil in Hcode.
  - intros [= <- <-]. by split.
  - done.
Qed.

Lemma respond_envelope_witness :
  400 = 400 ∧ errorhandler 400 = Some (ErrorBody 400 "Bad Request", 400).
Proof.
  apply (respond_envelope sample_insert sample_delete (λ k, k) 0
           (POST_quizzes {| previous_questions := None; quiz_category := None |})
           sample_store (ErrorBody 400 "Bad Request") 400).
  reflexivity.
Defined.

(** ** A pattern character as search term *)

Lemma ilike_percent (text : string) : ilike text ("%" ++ "%" ++ "%") = true.
Proof.
  unfold ilike. change (lower ("%" ++ "%" ++ "%")) with "%%%"%string.
  rewrite like_match_percent, like_match_percent.
  by rewrite like_match_percent_only.
Qed.

(** X22. The term [%] is not searched for as a character: pasted into the
    pattern it matches every text, so on a store that has questions the
    search answers 200 with the requested page of all of them, in the order
    of the store, whether or not any question contains a percent sign. *)
Theorem search_questions_percent_term (page_arg : option Z) (s : Store) :
  search_questions {| searchTerm := Some "%"%string |} page_arg s =
  (match questions_table s with
   | [] => Abort 404
   | _ :: _ =>
       Return (SearchPayload
                 (get_paginated_questions page_arg (questions_table s)
                    QUESTIONS_PER_PAGE)
                 (length (questions_table s)), 200)
   end, s).
Proof.
  rewrite search_questions_run by done. cbv zeta. cbn [py_str].
  assert (Hfilter :
    filter (λ q, ilike (Question.question q) ("%" ++ "%" ++ "%") = true)
           (questions_table s) = questions_table s).
  { induction (questions_table s) as [|q l IH]; [done|].
    rewrite filter_cons_True by apply ilike_percent. by rewrite IH. }
  by rewrite Hfilter.
Qed.
